(** * Touchline Elite: the fantasy-soccer data layer

    A shallow embedding of the Mongoose schema methods of the repository
    (PlayerStats, FantasyTeam, Season, Match, Team) and the properties the
    specification states about them.

    Conventions of the embedding.
    - A schema method mutates [this] and may throw.  It is a computation in
      the monad [M S A := S -> outcome A * S]: the document comes back next
      to the outcome, so the state left behind by a failing call is
      observable and "a failing call changes nothing" is a theorem, not a
      convention.  A call fails in one of two ways: it throws ([Thrown]), or
      it returns a promise that is rejected ([Rejected]), as [save()] does
      when the document does not pass the schema's validation.
    - The prices and budgets of a fantasy team are binary64 numbers
      ([float]) and their arithmetic is the rounded arithmetic of
      JavaScript.  The counting stats and the gameweeks, which the source
      declares as integers, are [Z]; the points computed from them, and
      the other numbers of PlayerStats, are exact rationals ([Q]).
    - [Date] values are their millisecond timestamps ([Z]); [new Date()] is
      an explicit [now] argument.
    - An [ObjectId] is the string its [toString()] returns: 24 hexadecimal
      digits in lower case.  [new mongoose.Types.ObjectId(s)] accepts a
      string of 24 hexadecimal digits in either case and throws on any
      other string.
    - Strings are sequences of bytes; for the ASCII strings of the samples
      a byte is a JavaScript character.
    - [save()] validates the document against its schema, then runs the
      [pre('save')] hook, then writes.  That is modelled where a property
      depends on it: for Season, whose schema registers a hook, and for
      Team, whose collection and queries are modelled.  The schemas of
      FantasyTeam, Match and PlayerStats register no hook and their
      methods end in [return this.save()]: what such a method returns is
      the promise, and nothing is said about its fate. *)

From Stdlib Require Import QArith Qminmax Qpower Lqa Floats.
From stdpp Require Import base option list strings pretty gmap fin_maps.

Local Open Scope Z_scope.

(** ** Methods as state-and-exception computations *)

Module Js.

Inductive outcome (A : Type) : Type :=
| Return (a : A)
| Thrown (message : string)
| Rejected (message : string).
Arguments Return {A} a.
Arguments Thrown {A} message.
Arguments Rejected {A} message.

Definition M (S A : Type) : Type := S -> outcome A * S.

Definition ret {S A} (a : A) : M S A := fun s => (Return a, s).

Definition bind {S A B} (c : M S A) (k : A -> M S B) : M S B :=
  fun s =>
    match c s with
    | (Return a, s') => k a s'
    | (Thrown e, s') => (Thrown e, s')
    | (Rejected e, s') => (Rejected e, s')
    end.

(** [throw new Error(message)] *)
Definition throw {S A} (message : string) : M S A := fun s => (Thrown message, s).

(** A promise rejected with [message]. *)
Definition reject {S A} (message : string) : M S A := fun s => (Rejected message, s).

(** An expression that does not touch the document, evaluated in a
    method. *)
Definition lift {S A} (o : outcome A) : M S A := fun s => (o, s).

Definition get {S} : M S S := fun s => (Return s, s).
Definition modify {S} (f : S -> S) : M S unit := fun s => (Return tt, f s).

(** The document a call leaves behind, however it ended. *)
Definition after {S A} (c : M S A) (s : S) : S := snd (c s).
Definition result {S A} (c : M S A) (s : S) : outcome A := fst (c s).

(** The call came back to its caller rather than threw: it returned a
    value or a promise, fulfilled or rejected. *)
Definition returned {A} (o : outcome A) : bool :=
  match o with Return _ | Rejected _ => true | Thrown _ => false end.

End Js.

Import Js.

Declare Scope js_scope.
Delimit Scope js_scope with js.
Notation "x <- c ;; k" := (bind c (fun x => k))
  (at level 100, c at next level, right associativity) : js_scope.
Notation "c ;; k" := (bind c (fun _ => k))
  (at level 100, right associativity) : js_scope.

(** ** PlayerStats: the fantasy points calculator *)

Module PlayerStats.

Record PerformanceStats : Type := {
  appearances : Z;
  starts : Z;
  minutesPlayed : Z;
  goals : Z;
  assists : Z;
  yellowCards : Z;
  redCards : Z;
  cleanSheets : Z;
  saves : Z;
  penaltiesSaved : Z;
  penaltiesMissed : Z;
  ownGoals : Z
}.

Record FantasyStats : Type := {
  fantasyPoints : Q;
  averagePoints : Q;
  pointsPerMinute : Q;
  currentPrice : Q;
  priceChangeTotal : Q;
  selectedByPercent : Q;
  transfersIn : Z;
  transfersOut : Z;
  transfersInRound : Z;
  transfersOutRound : Z
}.

Record PlayerStats : Type := {
  playerId : string;
  seasonId : string;
  teamId : option string;
  gameweek : option Z;
  performance : PerformanceStats;
  fantasy : FantasyStats;
  isActive : bool;
  lastUpdated : Z
}.

(** The constants of [lib/types/Schema.ts]. *)
Module FANTASY_POINTS.
Definition APPEARANCE : Q := 1.
Definition GOAL_GOALKEEPER : Q := 6.
Definition GOAL_DEFENDER : Q := 6.
Definition GOAL_MIDFIELDER : Q := 5.
Definition GOAL_FORWARD : Q := 4.
Definition ASSIST : Q := 3.
Definition CLEAN_SHEET_GOALKEEPER : Q := 4.
Definition CLEAN_SHEET_DEFENDER : Q := 4.
Definition PENALTY_SAVE : Q := 5.
Definition PENALTY_MISS : Q := -2.
Definition YELLOW_CARD : Q := -1.
Definition RED_CARD : Q := -3.
Definition OWN_GOAL : Q := -2.
Definition MINUTES_PLAYED_60_PLUS : Q := 2.
Definition MINUTES_PLAYED_1_TO_59 : Q := 1.
End FANTASY_POINTS.

Local Open Scope Q_scope.

(** The local variable [points] of [updateFantasyPoints], as it stands when
    [Math.max] is reached: one rebinding per [+=] / [-=] statement. *)
Definition points (performance : PerformanceStats) : Q :=
  let points := 0 in
  let points := points + inject_Z (appearances performance) * 1 in
  let points := points + inject_Z (goals performance) * 4 in
  let points := points + inject_Z (assists performance) * 3 in
  let points := points + inject_Z (cleanSheets performance) * 4 in
  let points := points + inject_Z (saves performance) * (1 # 2) in
  let points := points + inject_Z (penaltiesSaved performance) * 5 in
  let points := points - inject_Z (penaltiesMissed performance) * 2 in
  let points := points - inject_Z (yellowCards performance) * 1 in
  let points := points - inject_Z (redCards performance) * 3 in
  let points := points - inject_Z (ownGoals performance) * 2 in
  if (minutesPlayed performance >=? 60)%Z then points + 2
  else if (minutesPlayed performance >=? 1)%Z then points + 1
  else points.

Definition set_fantasy (f : FantasyStats) (this : PlayerStats) : PlayerStats :=
  {| playerId := playerId this; seasonId := seasonId this; teamId := teamId this;
     gameweek := gameweek this; performance := performance this; fantasy := f;
     isActive := isActive this; lastUpdated := lastUpdated this |}.

Definition set_fantasyPoints (x : Q) (f : FantasyStats) : FantasyStats :=
  {| fantasyPoints := x; averagePoints := averagePoints f;
     pointsPerMinute := pointsPerMinute f; currentPrice := currentPrice f;
     priceChangeTotal := priceChangeTotal f; selectedByPercent := selectedByPercent f;
     transfersIn := transfersIn f; transfersOut := transfersOut f;
     transfersInRound := transfersInRound f; transfersOutRound := transfersOutRound f |}.

Definition set_averagePoints (x : Q) (f : FantasyStats) : FantasyStats :=
  {| fantasyPoints := fantasyPoints f; averagePoints := x;
     pointsPerMinute := pointsPerMinute f; currentPrice := currentPrice f;
     priceChangeTotal := priceChangeTotal f; selectedByPercent := selectedByPercent f;
     transfersIn := transfersIn f; transfersOut := transfersOut f;
     transfersInRound := transfersInRound f; transfersOutRound := transfersOutRound f |}.

Definition set_pointsPerMinute (x : Q) (f : FantasyStats) : FantasyStats :=
  {| fantasyPoints := fantasyPoints f; averagePoints := averagePoints f;
     pointsPerMinute := x; currentPrice := currentPrice f;
     priceChangeTotal := priceChangeTotal f; selectedByPercent := selectedByPercent f;
     transfersIn := transfersIn f; transfersOut := transfersOut f;
     transfersInRound := transfersInRound f; transfersOutRound := transfersOutRound f |}.

(** No [pre('save')] hook is registered on [PlayerStatsSchema]. *)
Definition save : M PlayerStats unit := ret tt.

Definition updateFantasyPoints : M PlayerStats unit :=
  (this <- get ;;
   let performance := performance this in
   let points := points performance in
   modify (fun this => set_fantasy (set_fantasyPoints (Qmax 0 points) (fantasy this)) this) ;;
   modify (fun this =>
     set_fantasy
       (set_averagePoints
          (if (appearances performance >? 0)%Z
           then fantasyPoints (fantasy this) / inject_Z (appearances performance)
           else 0)
          (fantasy this)) this) ;;
   modify (fun this =>
     set_fantasy
       (set_pointsPerMinute
          (if (minutesPlayed performance >? 0)%Z
           then fantasyPoints (fantasy this) / inject_Z (minutesPlayed performance)
           else 0)
          (fantasy this)) this) ;;
   save)%js.

(** The formula of the specification (section 4.3), over the integers
    except for the half point per save. *)
Definition minutesBonus (minutes : Z) : Z :=
  if (60 <=? minutes)%Z then 2 else if (1 <=? minutes)%Z then 1 else 0.

Definition computePoints_spec (p : PerformanceStats) : Q :=
  Qmax 0
    (inject_Z (appearances p * 1 + goals p * 4 + assists p * 3 + cleanSheets p * 4
               + penaltiesSaved p * 5 - penaltiesMissed p * 2
               - yellowCards p * 1 - redCards p * 3 - ownGoals p * 2
               + minutesBonus (minutesPlayed p))
     + (saves p # 2)).

Definition add_goal (p : PerformanceStats) : PerformanceStats :=
  {| appearances := appearances p; starts := starts p; minutesPlayed := minutesPlayed p;
     goals := goals p + 1; assists := assists p; yellowCards := yellowCards p;
     redCards := redCards p; cleanSheets := cleanSheets p; saves := saves p;
     penaltiesSaved := penaltiesSaved p; penaltiesMissed := penaltiesMissed p;
     ownGoals := ownGoals p |}.

(** The virtuals of [PlayerStatsSchema]. *)
Definition goalInvolvement (this : PlayerStats) : Z :=
  (goals (performance this) + assists (performance this))%Z.

Definition disciplinaryPoints (this : PlayerStats) : Z :=
  (yellowCards (performance this) + redCards (performance this) * 2)%Z.

Definition priceEfficiency (this : PlayerStats) : Q :=
  if Qeq_bool (currentPrice (fantasy this)) 0 then 0
  else fantasyPoints (fantasy this) / currentPrice (fantasy this).

Definition form (this : PlayerStats) : Q :=
  if (appearances (performance this) =? 0)%Z then 0
  else fantasyPoints (fantasy this) / inject_Z (appearances (performance this)).

(** [FantasyStatsSchema]: the [min: 0] rules on the three paths
    [updateFantasyPoints] writes. *)
Definition derivedValid (f : FantasyStats) : Prop :=
  0 <= fantasyPoints f /\ 0 <= averagePoints f /\ 0 <= pointsPerMinute f.

(** One snapshot is at least as good as another: no fewer of what scores,
    no more of what costs. *)
Definition atLeastAsGood (p q : PerformanceStats) : Prop :=
  (appearances q <= appearances p /\ goals q <= goals p /\ assists q <= assists p /\
   cleanSheets q <= cleanSheets p /\ saves q <= saves p /\
   penaltiesSaved q <= penaltiesSaved p /\ minutesPlayed q <= minutesPlayed p /\
   penaltiesMissed p <= penaltiesMissed q /\ yellowCards p <= yellowCards q /\
   redCards p <= redCards q /\ ownGoals p <= ownGoals q)%Z.

End PlayerStats.

(** ** ObjectIds *)

Module Types.

Definition isHexDigit (c : Ascii.ascii) : bool :=
  let n := Ascii.N_of_ascii c in
  ((48 <=? n) && (n <=? 57) || (65 <=? n) && (n <=? 70) || (97 <=? n) && (n <=? 102))%N.

Definition toLowerCase (c : Ascii.ascii) : Ascii.ascii :=
  let n := Ascii.N_of_ascii c in
  if ((65 <=? n) && (n <=? 90))%N then Ascii.ascii_of_N (n + 32) else c.

(** [isValidObjectId] of [lib/types/Schema.ts]: the pattern
    [/^[0-9a-fA-F]{24}$/], which is also the test the ObjectId constructor
    makes on a string. *)
Definition isValidObjectId (value : string) : bool :=
  (String.length value =? 24)%nat && forallb isHexDigit (String.list_ascii_of_string value).

(** What [toString()] returns for the ObjectId made from 24 hexadecimal
    digits: the same digits in lower case. *)
Definition toHexString (value : string) : string :=
  String.string_of_list_ascii (map toLowerCase (String.list_ascii_of_string value)).

Definition BSONError : string :=
  "input must be a 24 character hex string, 12 byte Uint8Array, or an integer".

(** [new mongoose.Types.ObjectId(value)] on a string, as the constructor
    of bson 5 and later behaves: 24 hexadecimal digits make an ObjectId,
    any other string makes it throw. *)
Definition ObjectId (value : string) : outcome string :=
  if isValidObjectId value then Return (toHexString value) else Thrown BSONError.

(** A string that is the [toString()] of an ObjectId: 24 hexadecimal
    digits, none of them an upper-case letter. *)
Definition canonical (value : string) : bool :=
  isValidObjectId value && String.eqb (toHexString value) value.

End Types.

(** ** Binary64 numbers and the real numbers they stand for *)

Module Binary64.

(** The number a binary64 value stands for; [None] for NaN and the two
    infinities. *)
Definition value (x : float) : option Q :=
  match Prim2SF x with
  | S754_zero _ => Some 0%Q
  | S754_finite s m e =>
      Some ((if s then -1 else 1) * inject_Z (Z.pos m) * Qpower 2 e)%Q
  | S754_infinity _ | S754_nan => None
  end.

(** [c], computed as [a op b], is [a op b] exactly: the operation did not
    round (and none of the three is NaN or infinite). *)
Definition exactly (op : Q -> Q -> Q) (a b c : float) : bool :=
  match value a, value b, value c with
  | Some x, Some y, Some z => Qeq_bool z (op x y)
  | _, _, _ => false
  end.

(** Two binary64 values that stand for the same number. *)
Definition sameValue (a b : float) : bool :=
  match value a, value b with
  | Some x, Some y => Qeq_bool x y
  | _, _ => false
  end.

End Binary64.

(** ** FantasyTeam: the squad manager *)

Module FantasyTeam.

Import Binary64.

Inductive FantasyTeamStatus : Type := ACTIVE | COMPLETED | ABANDONED.

(** [playerId] holds the ObjectId, that is its [toString()]. *)
Record PlayerSelection : Type := {
  playerId : string;
  purchasePrice : float;
  currentValue : option float;
  isCaptain : bool;
  isViceCaptain : bool;
  isStarting : bool;
  addedAt : Z
}.

Record FantasyTeam : Type := {
  name : string;
  userId : string;
  seasonId : string;
  players : list PlayerSelection;
  budget : float;
  remainingBudget : float;
  totalValue : float;
  totalPoints : Z;
  gameweekPoints : Z;
  rank : Z;
  freeTransfers : Z;
  usedTransfers : Z;
  transferCost : float;
  status : FantasyTeamStatus;
  isPublic : bool
}.

Definition set_players (ps : list PlayerSelection) (this : FantasyTeam) : FantasyTeam :=
  {| name := name this; userId := userId this; seasonId := seasonId this;
     players := ps; budget := budget this; remainingBudget := remainingBudget this;
     totalValue := totalValue this; totalPoints := totalPoints this;
     gameweekPoints := gameweekPoints this; rank := rank this;
     freeTransfers := freeTransfers this; usedTransfers := usedTransfers this;
     transferCost := transferCost this; status := status this; isPublic := isPublic this |}.

Definition set_remainingBudget (x : float) (this : FantasyTeam) : FantasyTeam :=
  {| name := name this; userId := userId this; seasonId := seasonId this;
     players := players this; budget := budget this; remainingBudget := x;
     totalValue := totalValue this; totalPoints := totalPoints this;
     gameweekPoints := gameweekPoints this; rank := rank this;
     freeTransfers := freeTransfers this; usedTransfers := usedTransfers this;
     transferCost := transferCost this; status := status this; isPublic := isPublic this |}.

Definition set_totalValue (x : float) (this : FantasyTeam) : FantasyTeam :=
  {| name := name this; userId := userId this; seasonId := seasonId this;
     players := players this; budget := budget this; remainingBudget := remainingBudget this;
     totalValue := x; totalPoints := totalPoints this;
     gameweekPoints := gameweekPoints this; rank := rank this;
     freeTransfers := freeTransfers this; usedTransfers := usedTransfers this;
     transferCost := transferCost this; status := status this; isPublic := isPublic this |}.

Definition set_isCaptain (b : bool) (p : PlayerSelection) : PlayerSelection :=
  {| playerId := playerId p; purchasePrice := purchasePrice p;
     currentValue := currentValue p; isCaptain := b;
     isViceCaptain := isViceCaptain p; isStarting := isStarting p; addedAt := addedAt p |}.

Definition set_isViceCaptain (b : bool) (p : PlayerSelection) : PlayerSelection :=
  {| playerId := playerId p; purchasePrice := purchasePrice p;
     currentValue := currentValue p; isCaptain := isCaptain p;
     isViceCaptain := b; isStarting := isStarting p; addedAt := addedAt p |}.

(** The messages of the four errors the squad methods throw. *)
Definition SquadFullError : string := "Squad is full. Cannot add more players.".
Definition InsufficientBudgetError : string := "Insufficient budget to add this player.".
Definition DuplicatePlayerError : string := "Player is already in the squad.".
Definition PlayerNotFoundError : string := "Player not found in squad.".

(** [Array.prototype.find]: the first element the predicate accepts. *)
Definition find {A} (f : A -> bool) (l : list A) : option A := List.find f l.

(** [Array.prototype.findIndex]: the index of the first element the
    predicate accepts; [None] stands for [-1]. *)
Fixpoint findIndex {A} (f : A -> bool) (l : list A) : option nat :=
  match l with
  | [] => None
  | x :: l' => if f x then Some 0%nat else S <$> findIndex f l'
  end.

(** [players.splice(i, 1)] *)
Definition splice1 {A} (i : nat) (l : list A) : list A := delete i l.

(** No [pre('save')] hook is registered on [FantasyTeamSchema]; the
    method returns the promise of [save()]. *)
Definition save : M FantasyTeam unit := ret tt.

(** The selection [addPlayer] pushes, [playerId'] being the ObjectId made
    from the argument. *)
Definition newSelection (playerId' : string) (price : float) (isStarting' : bool) (now : Z)
  : PlayerSelection :=
  {| playerId := playerId'; purchasePrice := price; currentValue := None;
     isCaptain := false; isViceCaptain := false;
     isStarting := isStarting'; addedAt := now |}.

Definition addPlayer (playerId' : string) (price : float) (isStarting' : bool) (now : Z)
  : M FantasyTeam unit :=
  (this <- get ;;
   if (15 <=? length (players this))%nat then throw SquadFullError else
   if (remainingBudget this <? price)%float then throw InsufficientBudgetError else
   let existingPlayer :=
     find (fun p => String.eqb (playerId p) playerId') (players this) in
   if bool_decide (is_Some existingPlayer) then throw DuplicatePlayerError else
   objectId <- lift (Types.ObjectId playerId') ;;
   modify (fun this =>
     set_players (players this ++ [newSelection objectId price isStarting' now]) this) ;;
   modify (fun this => set_remainingBudget (remainingBudget this - price)%float this) ;;
   modify (fun this => set_totalValue (totalValue this + price)%float this) ;;
   save)%js.

Definition removePlayer (playerId' : string) : M FantasyTeam unit :=
  (this <- get ;;
   match findIndex (fun p => String.eqb (playerId p) playerId') (players this) with
   | None => throw PlayerNotFoundError
   | Some playerIndex =>
       match players this !! playerIndex with
       | None => throw "TypeError" (* [player] undefined: see [removePlayer_cases] *)
       | Some player =>
           modify (fun this =>
             set_remainingBudget (remainingBudget this + purchasePrice player)%float this) ;;
           modify (fun this =>
             set_totalValue (totalValue this - purchasePrice player)%float this) ;;
           modify (fun this => set_players (splice1 playerIndex (players this)) this) ;;
           save
       end
   end)%js.

(** The callback [setCaptain] hands to [forEach]. *)
Definition setCaptain_each (playerId' : string) (p : PlayerSelection) : PlayerSelection :=
  let p := set_isCaptain (String.eqb (playerId p) playerId') p in
  if isCaptain p then set_isViceCaptain false p else p.

Definition setCaptain (playerId' : string) : M FantasyTeam unit :=
  (modify (fun this => set_players (map (setCaptain_each playerId') (players this)) this) ;;
   save)%js.

(** The callback [setViceCaptain] hands to [forEach]. *)
Definition setViceCaptain_each (playerId' : string) (p : PlayerSelection) : PlayerSelection :=
  let p := set_isViceCaptain (String.eqb (playerId p) playerId') p in
  if isViceCaptain p then set_isCaptain false p else p.

Definition setViceCaptain (playerId' : string) : M FantasyTeam unit :=
  (modify (fun this => set_players (map (setViceCaptain_each playerId') (players this)) this) ;;
   save)%js.

(** The squad-mutation surface, as data: one constructor per method. *)
Inductive SquadCall : Type :=
| AddPlayer (playerId : string) (price : float) (isStarting : bool) (now : Z)
| RemovePlayer (playerId : string)
| SetCaptain (playerId : string)
| SetViceCaptain (playerId : string).

Definition call (c : SquadCall) : M FantasyTeam unit :=
  match c with
  | AddPlayer p price st now => addPlayer p price st now
  | RemovePlayer p => removePlayer p
  | SetCaptain p => setCaptain p
  | SetViceCaptain p => setViceCaptain p
  end.

(** The team after a sequence of calls; a call that throws is caught by the
    caller and the next call runs on the team it left behind. *)
Definition run (cs : list SquadCall) (this : FantasyTeam) : FantasyTeam :=
  fold_left (fun t c => after (call c) t) cs this.

(** The teams seen after each call of the sequence, in order. *)
Fixpoint trace (cs : list SquadCall) (this : FantasyTeam) : list FantasyTeam :=
  match cs with
  | [] => []
  | c :: cs' => let t := after (call c) this in t :: trace cs' t
  end.

Definition captains (this : FantasyTeam) : list PlayerSelection :=
  List.filter isCaptain (players this).

Definition viceCaptains (this : FantasyTeam) : list PlayerSelection :=
  List.filter isViceCaptain (players this).

Definition playerIds (this : FantasyTeam) : list string :=
  map playerId (players this).

(** [p.playerId.toString() === playerId] *)
Definition named (playerId' : string) (p : PlayerSelection) : bool :=
  String.eqb (playerId p) playerId'.

(** The budget equation of the specification, as JavaScript evaluates
    [remainingBudget + totalValue == budget]. *)
Definition balancedJs (this : FantasyTeam) : bool :=
  (remainingBudget this + totalValue this =? budget this)%float.

(** The budget equation of the specification, read of the numbers the
    three fields stand for. *)
Definition balanced (this : FantasyTeam) : bool :=
  match value (remainingBudget this), value (totalValue this), value (budget this) with
  | Some r, Some v, Some b => Qeq_bool (r + v) b
  | _, _, _ => false
  end.

(** The sum [remainingBudget + totalValue], as JavaScript computes it, is
    the sum of the two numbers. *)
Definition sumExact (this : FantasyTeam) : bool :=
  exactly Qplus (remainingBudget this) (totalValue this)
    (remainingBudget this + totalValue this)%float.

(** The additions and subtractions a call makes on [remainingBudget] and
    [totalValue] do not round, and neither does the sum of the two it
    leaves.  A call that throws makes none. *)
Definition noRounding (c : SquadCall) (this : FantasyTeam) : bool :=
  match c with
  | AddPlayer _ price _ _ =>
      match result (call c) this with
      | Return _ =>
          exactly Qminus (remainingBudget this) price (remainingBudget this - price)%float
          && exactly Qplus (totalValue this) price (totalValue this + price)%float
          && sumExact (after (call c) this)
      | _ => true
      end
  | RemovePlayer playerId' =>
      match findIndex (named playerId') (players this) with
      | Some playerIndex =>
          match players this !! playerIndex with
          | Some player =>
              exactly Qplus (remainingBudget this) (purchasePrice player)
                (remainingBudget this + purchasePrice player)%float
              && exactly Qminus (totalValue this) (purchasePrice player)
                   (totalValue this - purchasePrice player)%float
              && sumExact (after (call c) this)
          | None => true
          end
      | None => true
      end
  | SetCaptain _ | SetViceCaptain _ => true
  end.

(** No call of the sequence rounds, each call running on the team the
    calls before it left. *)
Fixpoint noRoundingIn (cs : list SquadCall) (this : FantasyTeam) : bool :=
  match cs with
  | [] => true
  | c :: cs' => noRounding c this && noRoundingIn cs' (after (call c) this)
  end.

(** Captain exclusivity as the specification words it: exactly one
    selection is captain, it is the named player's, and it is not
    vice-captain. *)
Definition captainIs (playerId' : string) (this : FantasyTeam) : Prop :=
  exists s, captains this = [s] /\ playerId s = playerId' /\ isViceCaptain s = false.

(** At most one captain, at most one vice-captain, nobody both. *)
Definition captaincyInvariant (this : FantasyTeam) : Prop :=
  (length (captains this) <= 1)%nat /\
  (length (viceCaptains this) <= 1)%nat /\
  Forall (fun p => isCaptain p && isViceCaptain p = false) (players this).

(** What the four methods keep when every signing names its player in
    lower case: on top of the captaincy invariant, no two selections share
    a player. *)
Definition goodSquad (this : FantasyTeam) : Prop :=
  NoDup (playerIds this) /\ captaincyInvariant this.

(** A call that, if it is a signing, names the player as [toString()]
    prints an ObjectId. *)
Definition canonicalCall (c : SquadCall) : bool :=
  match c with
  | AddPlayer playerId' _ _ _ => Types.canonical playerId'
  | _ => true
  end.

(** A team as [new FantasyTeamModel({ name, userId, seasonId, budget,
    remainingBudget })] builds it: no selections, the schema defaults
    elsewhere. *)
Definition newTeam (name' userId' seasonId' : string) (budget' : float) : FantasyTeam :=
  {| name := name'; userId := userId'; seasonId := seasonId'; players := [];
     budget := budget'; remainingBudget := budget'; totalValue := 0%float;
     totalPoints := 0; gameweekPoints := 0; rank := 0; freeTransfers := 1;
     usedTransfers := 0; transferCost := 0%float; status := ACTIVE; isPublic := false |}.

(** The virtuals of [FantasyTeamSchema]. *)
Definition squadCount (this : FantasyTeam) : nat := length (players this).

Definition startingLineupCount (this : FantasyTeam) : nat :=
  length (List.filter (fun p => isStarting p) (players this)).

Definition benchCount (this : FantasyTeam) : nat :=
  length (List.filter (fun p => negb (isStarting p)) (players this)).

Definition captain (this : FantasyTeam) : option PlayerSelection :=
  find (fun p => isCaptain p) (players this).

Definition viceCaptain (this : FantasyTeam) : option PlayerSelection :=
  find (fun p => isViceCaptain p) (players this).

(** Vice-captain exclusivity, worded as [captainIs]. *)
Definition viceCaptainIs (playerId' : string) (this : FantasyTeam) : Prop :=
  exists s, viceCaptains this = [s] /\ playerId s = playerId' /\ isCaptain s = false.

End FantasyTeam.

(** ** Season: the status state machine *)

Module Season.

Inductive SeasonStatus : Type := UPCOMING | ACTIVE | COMPLETED | CANCELLED.

Record Season : Type := {
  sportmonksId : Z;
  name : string;
  leagueId : string;
  startDate : Z;
  endDate : Z;
  currentGameweek : Z;
  totalGameweeks : Z;
  status : SeasonStatus;
  isFantasyActive : bool;
  transferDeadline : option Z
}.

Definition set_status (x : SeasonStatus) (this : Season) : Season :=
  {| sportmonksId := sportmonksId this; name := name this; leagueId := leagueId this;
     startDate := startDate this; endDate := endDate this;
     currentGameweek := currentGameweek this; totalGameweeks := totalGameweeks this;
     status := x; isFantasyActive := isFantasyActive this;
     transferDeadline := transferDeadline this |}.

Definition set_isFantasyActive (x : bool) (this : Season) : Season :=
  {| sportmonksId := sportmonksId this; name := name this; leagueId := leagueId this;
     startDate := startDate this; endDate := endDate this;
     currentGameweek := currentGameweek this; totalGameweeks := totalGameweeks this;
     status := status this; isFantasyActive := x;
     transferDeadline := transferDeadline this |}.

Definition set_currentGameweek (x : Z) (this : Season) : Season :=
  {| sportmonksId := sportmonksId this; name := name this; leagueId := leagueId this;
     startDate := startDate this; endDate := endDate this;
     currentGameweek := x; totalGameweeks := totalGameweeks this;
     status := status this; isFantasyActive := isFantasyActive this;
     transferDeadline := transferDeadline this |}.

Definition set_transferDeadline (x : option Z) (this : Season) : Season :=
  {| sportmonksId := sportmonksId this; name := name this; leagueId := leagueId this;
     startDate := startDate this; endDate := endDate this;
     currentGameweek := currentGameweek this; totalGameweeks := totalGameweeks this;
     status := status this; isFantasyActive := isFantasyActive this;
     transferDeadline := x |}.

Definition status_eqb (a b : SeasonStatus) : bool :=
  match a, b with
  | UPCOMING, UPCOMING | ACTIVE, ACTIVE | COMPLETED, COMPLETED | CANCELLED, CANCELLED => true
  | _, _ => false
  end.

(** [SeasonSchema.pre('save', ...)], with [now] for [new Date()]. *)
Definition preSave (now : Z) (this : Season) : Season :=
  if status_eqb (status this) UPCOMING && (startDate this <=? now) && (endDate this >=? now)
  then set_status ACTIVE this
  else if status_eqb (status this) ACTIVE && (endDate this <? now)
  then set_isFantasyActive false (set_status COMPLETED this)
  else this.

(** The validators of [SeasonSchema] that read the document: [endDate]
    after [startDate], [currentGameweek] between 1 and [totalGameweeks],
    [totalGameweeks] between 1 and 50, [transferDeadline] within the dates. *)
Definition transferDeadlineValidator (this : Season) (value : option Z) : bool :=
  match value with
  | None => true
  | Some v => (v >=? startDate this) && (v <=? endDate this)
  end.

Definition schemaValid (this : Season) : bool :=
  (endDate this >? startDate this) &&
  (1 <=? currentGameweek this) && (currentGameweek this <=? totalGameweeks this) &&
  (1 <=? totalGameweeks this) && (totalGameweeks this <=? 50) &&
  transferDeadlineValidator this (transferDeadline this).

(** The document passes the validation of [SeasonSchema]: on top of the
    rules above, the required [name] is not empty and has at most 100
    characters. *)
Definition documentValid (this : Season) : bool :=
  negb (String.eqb (name this) "") && (String.length (name this) <=? 100)%nat
  && schemaValid this.

(** The rejection of a document that fails validation.  The message of
    the real error lists the failing paths. *)
Definition ValidationError : string := "Season validation failed".

(** [this.save()]: the document is validated first, every path of it.
    When the schema accepts it the hook runs on it and it is written;
    otherwise the promise is rejected, the hook does not run and the
    document stays as the caller left it. *)
Definition save (now : Z) : M Season unit :=
  (this <- get ;;
   if documentValid this then modify (preSave now) else reject ValidationError)%js.

Definition advanceGameweek (now : Z) : M Season unit :=
  (this <- get ;;
   if currentGameweek this <? totalGameweeks this
   then modify (fun this => set_currentGameweek (currentGameweek this + 1) this) ;; save now
   else throw "Cannot advance beyond total gameweeks")%js.

Definition activateSeason (now : Z) : M Season unit :=
  (this <- get ;;
   if status_eqb (status this) UPCOMING
   then modify (set_status ACTIVE) ;; modify (set_isFantasyActive true) ;; save now
   else throw "Can only activate upcoming seasons")%js.

Definition completeSeason (now : Z) : M Season unit :=
  (this <- get ;;
   if status_eqb (status this) ACTIVE
   then modify (set_status COMPLETED) ;; modify (set_isFantasyActive false) ;; save now
   else throw "Can only complete active seasons")%js.

Definition setTransferDeadline (deadline now : Z) : M Season unit :=
  (this <- get ;;
   if (deadline <? startDate this) || (deadline >? endDate this)
   then throw "Transfer deadline must be within season dates"
   else modify (set_transferDeadline (Some deadline)) ;; save now)%js.

(** A season as [new SeasonModel(data)] builds it: the schema defaults for
    the paths the caller leaves out. *)
Definition newSeason (sportmonksId' : Z) (name' leagueId' : string)
    (startDate' endDate' totalGameweeks' : Z) : Season :=
  {| sportmonksId := sportmonksId'; name := name'; leagueId := leagueId';
     startDate := startDate'; endDate := endDate';
     currentGameweek := 1; totalGameweeks := totalGameweeks';
     status := UPCOMING; isFantasyActive := false; transferDeadline := None |}.

(** The methods of a season, as data. *)
Inductive SeasonCall : Type :=
| Save (now : Z)
| AdvanceGameweek (now : Z)
| ActivateSeason (now : Z)
| CompleteSeason (now : Z)
| SetTransferDeadline (deadline now : Z).

Definition call (c : SeasonCall) : M Season unit :=
  match c with
  | Save now => save now
  | AdvanceGameweek now => advanceGameweek now
  | ActivateSeason now => activateSeason now
  | CompleteSeason now => completeSeason now
  | SetTransferDeadline deadline now => setTransferDeadline deadline now
  end.

(** The season after a sequence of calls, a throwing call being caught. *)
Definition run (cs : list SeasonCall) (this : Season) : Season :=
  fold_left (fun s c => after (call c) s) cs this.

(** The order of the lifecycle: a status leads to itself, Upcoming to
    Active and Completed, Active to Completed; nothing leads to or from
    Cancelled. *)
Definition leadsTo (a b : SeasonStatus) : bool :=
  match a, b with
  | UPCOMING, (UPCOMING | ACTIVE | COMPLETED) => true
  | ACTIVE, (ACTIVE | COMPLETED) => true
  | COMPLETED, COMPLETED => true
  | CANCELLED, CANCELLED => true
  | _, _ => false
  end.

(** The virtuals [isActive], [isUpcoming] and [isCompleted], read at [now]. *)
Definition isActive (now : Z) (this : Season) : bool :=
  status_eqb (status this) ACTIVE && (startDate this <=? now) && (endDate this >=? now).

Definition isUpcoming (now : Z) (this : Season) : bool :=
  status_eqb (status this) UPCOMING && (startDate this >? now).

Definition isCompleted (now : Z) (this : Season) : bool :=
  status_eqb (status this) COMPLETED || (endDate this <? now).

End Season.

(** ** Match: score and result *)

Module Match.

Inductive MatchStatus : Type :=
  SCHEDULED | LIVE | HALFTIME | FINISHED | POSTPONED | CANCELLED | SUSPENDED.

Inductive MatchResult : Type := HOME_WIN | AWAY_WIN | DRAW.

Record TeamScore : Type := {
  teamId : string;
  goals : Z;
  halftimeGoals : option Z;
  shots : option Z;
  shotsOnTarget : option Z;
  corners : option Z;
  fouls : option Z;
  yellowCards : option Z;
  redCards : option Z;
  possession : option Z
}.

Record Match : Type := {
  sportmonksId : Z;
  seasonId : string;
  leagueId : string;
  gameweek : Z;
  kickoffTime : Z;
  homeTeamId : string;
  awayTeamId : string;
  homeTeamScore : option TeamScore;
  awayTeamScore : option TeamScore;
  status : MatchStatus;
  result : option MatchResult;
  currentMinute : option Z;
  venue : option string;
  referee : option string;
  attendance : option Z;
  isFantasyRelevant : bool;
  lastUpdated : option Z
}.

Definition set_goals (g : Z) (s : TeamScore) : TeamScore :=
  {| teamId := teamId s; goals := g; halftimeGoals := halftimeGoals s; shots := shots s;
     shotsOnTarget := shotsOnTarget s; corners := corners s; fouls := fouls s;
     yellowCards := yellowCards s; redCards := redCards s; possession := possession s |}.

(** The object literal [{ teamId, goals }] as [TeamScoreSchema] casts it:
    the defaults of the schema fill [yellowCards] and [redCards], every
    other path is absent. *)
Definition newScore (teamId' : string) (g : Z) : TeamScore :=
  {| teamId := teamId'; goals := g; halftimeGoals := None; shots := None;
     shotsOnTarget := None; corners := None; fouls := None;
     yellowCards := Some 0; redCards := Some 0; possession := None |}.

Definition set_homeTeamScore (x : option TeamScore) (this : Match) : Match :=
  {| sportmonksId := sportmonksId this; seasonId := seasonId this; leagueId := leagueId this;
     gameweek := gameweek this; kickoffTime := kickoffTime this;
     homeTeamId := homeTeamId this; awayTeamId := awayTeamId this;
     homeTeamScore := x; awayTeamScore := awayTeamScore this;
     status := status this; result := result this; currentMinute := currentMinute this;
     venue := venue this; referee := referee this; attendance := attendance this;
     isFantasyRelevant := isFantasyRelevant this; lastUpdated := lastUpdated this |}.

Definition set_awayTeamScore (x : option TeamScore) (this : Match) : Match :=
  {| sportmonksId := sportmonksId this; seasonId := seasonId this; leagueId := leagueId this;
     gameweek := gameweek this; kickoffTime := kickoffTime this;
     homeTeamId := homeTeamId this; awayTeamId := awayTeamId this;
     homeTeamScore := homeTeamScore this; awayTeamScore := x;
     status := status this; result := result this; currentMinute := currentMinute this;
     venue := venue this; referee := referee this; attendance := attendance this;
     isFantasyRelevant := isFantasyRelevant this; lastUpdated := lastUpdated this |}.

Definition set_status (x : MatchStatus) (this : Match) : Match :=
  {| sportmonksId := sportmonksId this; seasonId := seasonId this; leagueId := leagueId this;
     gameweek := gameweek this; kickoffTime := kickoffTime this;
     homeTeamId := homeTeamId this; awayTeamId := awayTeamId this;
     homeTeamScore := homeTeamScore this; awayTeamScore := awayTeamScore this;
     status := x; result := result this; currentMinute := currentMinute this;
     venue := venue this; referee := referee this; attendance := attendance this;
     isFantasyRelevant := isFantasyRelevant this; lastUpdated := lastUpdated this |}.

Definition set_result (x : option MatchResult) (this : Match) : Match :=
  {| sportmonksId := sportmonksId this; seasonId := seasonId this; leagueId := leagueId this;
     gameweek := gameweek this; kickoffTime := kickoffTime this;
     homeTeamId := homeTeamId this; awayTeamId := awayTeamId this;
     homeTeamScore := homeTeamScore this; awayTeamScore := awayTeamScore this;
     status := status this; result := x; currentMinute := currentMinute this;
     venue := venue this; referee := referee this; attendance := attendance this;
     isFantasyRelevant := isFantasyRelevant this; lastUpdated := lastUpdated this |}.

Definition set_currentMinute (x : option Z) (this : Match) : Match :=
  {| sportmonksId := sportmonksId this; seasonId := seasonId this; leagueId := leagueId this;
     gameweek := gameweek this; kickoffTime := kickoffTime this;
     homeTeamId := homeTeamId this; awayTeamId := awayTeamId this;
     homeTeamScore := homeTeamScore this; awayTeamScore := awayTeamScore this;
     status := status this; result := result this; currentMinute := x;
     venue := venue this; referee := referee this; attendance := attendance this;
     isFantasyRelevant := isFantasyRelevant this; lastUpdated := lastUpdated this |}.

Definition set_lastUpdated (x : option Z) (this : Match) : Match :=
  {| sportmonksId := sportmonksId this; seasonId := seasonId this; leagueId := leagueId this;
     gameweek := gameweek this; kickoffTime := kickoffTime this;
     homeTeamId := homeTeamId this; awayTeamId := awayTeamId this;
     homeTeamScore := homeTeamScore this; awayTeamScore := awayTeamScore this;
     status := status this; result := result this; currentMinute := currentMinute this;
     venue := venue this; referee := referee this; attendance := attendance this;
     isFantasyRelevant := isFantasyRelevant this; lastUpdated := x |}.

Definition status_eqb (a b : MatchStatus) : bool :=
  match a, b with
  | SCHEDULED, SCHEDULED | LIVE, LIVE | HALFTIME, HALFTIME | FINISHED, FINISHED
  | POSTPONED, POSTPONED | CANCELLED, CANCELLED | SUSPENDED, SUSPENDED => true
  | _, _ => false
  end.

(** [Array.prototype.includes] on a list of statuses. *)
Definition includes (l : list MatchStatus) (x : MatchStatus) : bool :=
  existsb (status_eqb x) l.

(** No [pre('save')] hook is registered on [MatchSchema]. *)
Definition save : M Match unit := ret tt.

Definition updateScore (homeGoals awayGoals now : Z) : M Match unit :=
  (this <- get ;;
   match homeTeamScore this with
   | None => modify (set_homeTeamScore (Some (newScore (homeTeamId this) homeGoals)))
   | Some score => modify (set_homeTeamScore (Some (set_goals homeGoals score)))
   end ;;
   this <- get ;;
   match awayTeamScore this with
   | None => modify (set_awayTeamScore (Some (newScore (awayTeamId this) awayGoals)))
   | Some score => modify (set_awayTeamScore (Some (set_goals awayGoals score)))
   end ;;
   (if homeGoals >? awayGoals then modify (set_result (Some HOME_WIN))
    else if awayGoals >? homeGoals then modify (set_result (Some AWAY_WIN))
    else modify (set_result (Some DRAW))) ;;
   modify (set_lastUpdated (Some now)) ;;
   save)%js.

Definition startMatch (now : Z) : M Match unit :=
  (this <- get ;;
   if status_eqb (status this) SCHEDULED
   then modify (set_status LIVE) ;; modify (set_currentMinute (Some 0)) ;;
        modify (set_lastUpdated (Some now)) ;; save
   else throw "Can only start scheduled matches")%js.

Definition finishMatch (now : Z) : M Match unit :=
  (this <- get ;;
   if includes [LIVE; HALFTIME] (status this)
   then modify (set_status FINISHED) ;; modify (set_currentMinute (Some 90)) ;;
        modify (set_lastUpdated (Some now)) ;; save
   else throw "Can only finish live matches")%js.

Definition postponeMatch (now : Z) : M Match unit :=
  (this <- get ;;
   if status_eqb (status this) SCHEDULED
   then modify (set_status POSTPONED) ;; modify (set_lastUpdated (Some now)) ;; save
   else throw "Can only postpone scheduled matches")%js.

(** What the specification says of [result]: it is there only on a
    finished match. *)
Definition resultOnlyWhenFinished (m : Match) : Prop :=
  is_Some (result m) -> status m = FINISHED.

(** The result the comparison of two goal counts gives. *)
Definition compareGoals (homeGoals awayGoals : Z) : MatchResult :=
  match homeGoals ?= awayGoals with
  | Gt => HOME_WIN
  | Lt => AWAY_WIN
  | Eq => DRAW
  end.

(** [x || 0] on a number that may be missing. *)
Definition orZero (x : option Z) : Z :=
  match x with
  | Some v => if v =? 0 then 0 else v
  | None => 0
  end.

(** The virtuals of [MatchSchema] that do not read the clock. *)
Definition isLive (this : Match) : bool := includes [LIVE; HALFTIME] (status this).

Definition isFinished (this : Match) : bool := status_eqb (status this) FINISHED.

Definition totalGoals (this : Match) : Z :=
  let homeGoals := orZero (goals <$> homeTeamScore this) in
  let awayGoals := orZero (goals <$> awayTeamScore this) in
  homeGoals + awayGoals.

Definition goalDifference (this : Match) : Z :=
  let homeGoals := orZero (goals <$> homeTeamScore this) in
  let awayGoals := orZero (goals <$> awayTeamScore this) in
  Z.abs (homeGoals - awayGoals).

(** The methods of a match, as data. *)
Inductive MatchCall : Type :=
| UpdateScore (homeGoals awayGoals now : Z)
| StartMatch (now : Z)
| FinishMatch (now : Z)
| PostponeMatch (now : Z).

Definition call (c : MatchCall) : M Match unit :=
  match c with
  | UpdateScore homeGoals awayGoals now => updateScore homeGoals awayGoals now
  | StartMatch now => startMatch now
  | FinishMatch now => finishMatch now
  | PostponeMatch now => postponeMatch now
  end.

(** The match after a sequence of calls, a throwing call being caught. *)
Definition run (cs : list MatchCall) (this : Match) : Match :=
  fold_left (fun m c => after (call c) m) cs this.

(** A match played through: kick-off, the score updates [(home, away,
    time)] in order, the final whistle. *)
Definition playedThrough (kickOff : Z) (scores : list (Z * Z * Z)) (whistle : Z)
  : list MatchCall :=
  StartMatch kickOff
  :: map (fun score => UpdateScore score.1.1 score.1.2 score.2) scores
  ++ [FinishMatch whistle].

(** The steps the three status methods take: Scheduled to Live or
    Postponed, Live or Halftime to Finished; every status leads to
    itself. *)
Definition leadsTo (a b : MatchStatus) : bool :=
  match a, b with
  | SCHEDULED, (SCHEDULED | LIVE | FINISHED | POSTPONED) => true
  | LIVE, (LIVE | FINISHED) => true
  | HALFTIME, (HALFTIME | FINISHED) => true
  | FINISHED, FINISHED => true
  | POSTPONED, POSTPONED => true
  | CANCELLED, CANCELLED => true
  | SUSPENDED, SUSPENDED => true
  | _, _ => false
  end.

End Match.

(** ** Team: soft delete and the default query filter *)

Module Team.

Record Team : Type := {
  sportmonksId : Z;
  name : string;
  shortCode : option string;
  logoUrl : option string;
  foundedYear : option Z;
  country : option string;
  city : option string;
  venue : option string;
  leagueId : option string;
  isActive : bool;
  deletedAt : option Z;
  createdAt : Z;
  updatedAt : Z
}.

Definition set_isActive (x : bool) (this : Team) : Team :=
  {| sportmonksId := sportmonksId this; name := name this; shortCode := shortCode this;
     logoUrl := logoUrl this; foundedYear := foundedYear this; country := country this;
     city := city this; venue := venue this; leagueId := leagueId this;
     isActive := x; deletedAt := deletedAt this;
     createdAt := createdAt this; updatedAt := updatedAt this |}.

Definition set_deletedAt (x : option Z) (this : Team) : Team :=
  {| sportmonksId := sportmonksId this; name := name this; shortCode := shortCode this;
     logoUrl := logoUrl this; foundedYear := foundedYear this; country := country this;
     city := city this; venue := venue this; leagueId := leagueId this;
     isActive := isActive this; deletedAt := x;
     createdAt := createdAt this; updatedAt := updatedAt this |}.

Definition set_updatedAt (x : Z) (this : Team) : Team :=
  {| sportmonksId := sportmonksId this; name := name this; shortCode := shortCode this;
     logoUrl := logoUrl this; foundedYear := foundedYear this; country := country this;
     city := city this; venue := venue this; leagueId := leagueId this;
     isActive := isActive this; deletedAt := deletedAt this;
     createdAt := createdAt this; updatedAt := x |}.

(** *** The validators of [TeamSchema] *)

(** The white space [String.prototype.trim] removes, among the ASCII
    characters. *)
Definition isWhiteSpace (c : Ascii.ascii) : bool :=
  let n := Ascii.N_of_ascii c in ((9 <=? n) && (n <=? 13) || (n =? 32))%N.

Fixpoint trimStart (l : list Ascii.ascii) : list Ascii.ascii :=
  match l with
  | c :: l' => if isWhiteSpace c then trimStart l' else l
  | [] => []
  end.

Definition trim (s : string) : string :=
  String.string_of_list_ascii (rev (trimStart (rev (trimStart (String.list_ascii_of_string s))))).

(** [/^[A-Z0-9]+$/.test(value)] *)
Definition isUpperOrDigit (c : Ascii.ascii) : bool :=
  let n := Ascii.N_of_ascii c in ((48 <=? n) && (n <=? 57) || (65 <=? n) && (n <=? 90))%N.

Definition shortCodeRegex (value : string) : bool :=
  negb (String.eqb value "") && forallb isUpperOrDigit (String.list_ascii_of_string value).

(** [value] begins with a character the [.] of a regular expression
    matches: any but a line terminator (LF, CR, and U+2028 and U+2029,
    whose bytes are E2 80 A8 and E2 80 A9). *)
Definition beginsWithDot (value : string) : bool :=
  match String.list_ascii_of_string value with
  | [] => false
  | c :: rest =>
      let n := Ascii.N_of_ascii c in
      negb ((n =? 10) || (n =? 13))%N
      && negb match rest with
              | c1 :: c2 :: _ =>
                  ((n =? 226) && (Ascii.N_of_ascii c1 =? 128)
                   && ((Ascii.N_of_ascii c2 =? 168) || (Ascii.N_of_ascii c2 =? 169)))%N
              | _ => false
              end
  end.

Definition afterPrefix (p value : string) : option string :=
  if String.prefix p value
  then Some (String.substring (String.length p) (String.length value - String.length p) value)
  else None.

(** [/^https?:\/\/.+/.test(value)] *)
Definition urlRegex (value : string) : bool :=
  match afterPrefix "https://" value with
  | Some rest => beginsWithDot rest
  | None =>
      match afterPrefix "http://" value with
      | Some rest => beginsWithDot rest
      | None => false
      end
  end.

(** A rule on an optional path: a path that is not set passes. *)
Definition optionally {A} (rule : A -> bool) (value : option A) : bool :=
  match value with Some v => rule v | None => true end.

Definition maxlength (n : nat) (value : string) : bool := (String.length value <=? n)%nat.

(** [!value] on a string *)
Definition falsy (value : string) : bool := String.eqb value "".

(** The document passes the validation of [TeamSchema]; [thisYear] is
    [new Date().getFullYear()] as evaluated when the schema is built. *)
Definition validate (thisYear : Z) (this : Team) : bool :=
  (0 <? sportmonksId this)
  && negb (falsy (name this)) && maxlength 100 (name this)
  && (0 <? String.length (trim (name this)))%nat
  && optionally (fun v => maxlength 10 v && (falsy v || shortCodeRegex v)) (shortCode this)
  && optionally (fun v => falsy v || urlRegex v) (logoUrl this)
  && optionally (fun v => (1800 <=? v) && (v <=? thisYear)) (foundedYear this)
  && optionally (maxlength 50) (country this)
  && optionally (maxlength 50) (city this)
  && optionally (maxlength 100) (venue this).

(** The rejection of a document that fails validation.  The message of
    the real error lists the failing paths. *)
Definition ValidationError : string := "Team validation failed".

(** *** Documents and the collection *)

(** The [teams] collection: the stored documents by [_id]. *)
Abbreviation Collection := (gmap string Team).

(** A document instance and the collection behind its model: what an
    instance method of [TeamSchema] can change. *)
Record Instance : Type := {
  _id : string;
  this : Team;
  teams : Collection
}.

Definition set_this (f : Team -> Team) (i : Instance) : Instance :=
  {| _id := _id i; this := f (this i); teams := teams i |}.

Definition set_teams (f : Collection -> Collection) (i : Instance) : Instance :=
  {| _id := _id i; this := this i; teams := f (teams i) |}.

(** [this.save()] on a document the method has just assigned to: the
    document is validated; when the schema accepts it, [timestamps: true]
    stamps [updatedAt] with the time of the save, [stamp], and the
    document is written under its [_id]; otherwise the promise is rejected
    and nothing is stamped or written. *)
Definition save (thisYear stamp : Z) : M Instance unit :=
  (i <- get ;;
   if validate thisYear (this i)
   then modify (set_this (set_updatedAt stamp)) ;;
        modify (fun i => set_teams (insert (_id i) (this i)) i)
   else reject ValidationError)%js.

(** [this.deleteOne()]: the stored document is removed. *)
Definition deleteOne : M Instance unit :=
  modify (fun i => set_teams (base.delete (_id i)) i).

(** [options: { hard?: boolean }] *)
Record DeleteOptions : Type := { hard : option bool }.

(** The default argument [{}]. *)
Definition noOptions : DeleteOptions := {| hard := None |}.

(** Truthiness of an optional boolean. *)
Definition truthy (b : option bool) : bool :=
  match b with Some true => true | _ => false end.

Definition activate (thisYear stamp : Z) : M Instance unit :=
  (modify (set_this (set_isActive true)) ;;
   modify (set_this (set_deletedAt None)) ;;
   save thisYear stamp)%js.

Definition deactivate (thisYear stamp : Z) : M Instance unit :=
  (modify (set_this (set_isActive false)) ;; save thisYear stamp)%js.

(** The instance holds the document as the collection stores it: it was
    loaded from the collection, or saved to it, and not assigned to
    since. *)
Definition inStep (i : Instance) : Prop := teams i !! _id i = Some (this i).

(** The condition a filter puts on [deletedAt]: the path is absent from the
    filter, or is [null], or is [{ $ne: null }], or is a date. *)
Inductive DeletedAtFilter : Type :=
| Absent
| IsNull
| NotNull
| IsDate (d : Z).

(** The filters the statics of [TeamSchema] build: equality on the listed
    paths, each optional. *)
Record Filter : Type := {
  f_id : option string;
  f_leagueId : option string;
  f_country : option string;
  f_isActive : option bool;
  f_deletedAt : DeletedAtFilter
}.

(** The filter [{}]. *)
Definition noFilter : Filter :=
  {| f_id := None; f_leagueId := None; f_country := None; f_isActive := None;
     f_deletedAt := Absent |}.

Definition set_f_deletedAt (x : DeletedAtFilter) (q : Filter) : Filter :=
  {| f_id := f_id q; f_leagueId := f_leagueId q; f_country := f_country q;
     f_isActive := f_isActive q; f_deletedAt := x |}.

(** [!query.deletedAt] is false exactly for an operator object or a date. *)
Definition deletedAtTruthy (c : DeletedAtFilter) : bool :=
  match c with
  | Absent | IsNull => false
  | NotNull | IsDate _ => true
  end.

(** [TeamSchema.pre(/^find/, ...)] *)
Definition preFind (query : Filter) : Filter :=
  if negb (deletedAtTruthy (f_deletedAt query))
  then set_f_deletedAt IsNull query
  else query.

Definition matchesDeletedAt (c : DeletedAtFilter) (t : Team) : bool :=
  match c with
  | Absent => true
  | IsNull => bool_decide (deletedAt t = None)
  | NotNull => bool_decide (deletedAt t <> None)
  | IsDate d => bool_decide (deletedAt t = Some d)
  end.

Definition matchesOpt {A} `{EqDecision A} (c : option A) (x : A) : bool :=
  match c with
  | None => true
  | Some v => bool_decide (x = v)
  end.

(** The paths of a filter other than [deletedAt]. *)
Definition matchesRest (q : Filter) (id : string) (t : Team) : bool :=
  matchesOpt (f_id q) id &&
  match f_leagueId q with None => true | Some l => bool_decide (leagueId t = Some l) end &&
  match f_country q with None => true | Some c => bool_decide (country t = Some c) end &&
  matchesOpt (f_isActive q) (isActive t).

Definition matches (q : Filter) (id : string) (t : Team) : bool :=
  matchesRest q id t && matchesDeletedAt (f_deletedAt q) t.

(** [Model.find(filter)]: the hook rewrites the filter, then the stored
    documents that match are returned. *)
Definition find (query : Filter) (c : Collection) : Collection :=
  filter (fun kv => matches (preFind query) kv.1 kv.2 = true) c.

(** [Model.findOne(filter)]: a [find] query as well, so the hook applies;
    the first match or [null]. *)
Definition findOne (query : Filter) (c : Collection) : option Team :=
  snd <$> head (map_to_list (find query c)).

(** [Model.findById(id)] is [findOne({ _id: id })]. *)
Definition findById (id : string) (c : Collection) : option Team :=
  findOne {| f_id := Some id; f_leagueId := None; f_country := None;
             f_isActive := None; f_deletedAt := Absent |} c.

Definition findByLeague (leagueId' : string) : Collection -> Collection :=
  find {| f_id := None; f_leagueId := Some leagueId'; f_country := None;
          f_isActive := Some true; f_deletedAt := IsNull |}.

Definition findByCountry (country' : string) : Collection -> Collection :=
  find {| f_id := None; f_leagueId := None; f_country := Some country';
          f_isActive := Some true; f_deletedAt := IsNull |}.

Definition findDeleted : Collection -> Collection :=
  find {| f_id := None; f_leagueId := None; f_country := None;
          f_isActive := None; f_deletedAt := NotNull |}.

Definition findInactive : Collection -> Collection :=
  find {| f_id := None; f_leagueId := None; f_country := None;
          f_isActive := Some false; f_deletedAt := IsNull |}.

(** [now] is the [new Date()] of the method, [stamp] the later time of
    its save. *)
Definition delete (thisYear : Z) (options : DeleteOptions) (now stamp : Z)
  : M Instance unit :=
  (if truthy (hard options)
   then deleteOne
   else modify (set_this (set_deletedAt (Some now))) ;;
        modify (set_this (set_isActive false)) ;;
        save thisYear stamp)%js.

End Team.

(** ** The test helpers: squad composition *)

Module Matchers.

(** The keys of [positionCounts]: the values of the [PlayerPosition] enum
    (as [lib/types/Schema.ts] declares them). *)
Inductive PlayerPosition : Type := GOALKEEPER | DEFENDER | MIDFIELDER | FORWARD.

Definition positionName (position : PlayerPosition) : string :=
  match position with
  | GOALKEEPER => "Goalkeeper"
  | DEFENDER => "Defender"
  | MIDFIELDER => "Midfielder"
  | FORWARD => "Forward"
  end.

Record PositionCounts : Type := {
  goalkeepers : nat;
  defenders : nat;
  midfielders : nat;
  forwards : nat
}.

(** The callback of [received.forEach]: a received player is read through
    its [position] only, [None] when it is missing or is not a key of
    [positionCounts]; such a player is not counted. *)
Definition countPosition (positionCounts : PositionCounts) (position : option PlayerPosition)
  : PositionCounts :=
  match position with
  | Some GOALKEEPER =>
      {| goalkeepers := S (goalkeepers positionCounts); defenders := defenders positionCounts;
         midfielders := midfielders positionCounts; forwards := forwards positionCounts |}
  | Some DEFENDER =>
      {| goalkeepers := goalkeepers positionCounts; defenders := S (defenders positionCounts);
         midfielders := midfielders positionCounts; forwards := forwards positionCounts |}
  | Some MIDFIELDER =>
      {| goalkeepers := goalkeepers positionCounts; defenders := defenders positionCounts;
         midfielders := S (midfielders positionCounts); forwards := forwards positionCounts |}
  | Some FORWARD =>
      {| goalkeepers := goalkeepers positionCounts; defenders := defenders positionCounts;
         midfielders := midfielders positionCounts; forwards := S (forwards positionCounts) |}
  | None => positionCounts
  end.

Record Rule : Type := { min : nat; max : nat }.

Definition rules (position : PlayerPosition) : Rule :=
  match position with
  | GOALKEEPER => {| min := 1; max := 2 |}
  | DEFENDER => {| min := 3; max := 5 |}
  | MIDFIELDER => {| min := 3; max := 5 |}
  | FORWARD => {| min := 1; max := 3 |}
  end.

Record MatcherResult : Type := { message : string; pass : bool }.

(** [Object.entries(positionCounts)], in insertion order. *)
Definition entries (positionCounts : PositionCounts) : list (PlayerPosition * nat) :=
  [ (GOALKEEPER, goalkeepers positionCounts); (DEFENDER, defenders positionCounts);
    (MIDFIELDER, midfielders positionCounts); (FORWARD, forwards positionCounts) ].

(** The [for ... of] loop: the result it returns at the first entry out of
    its rule, if any. *)
Fixpoint firstViolation (es : list (PlayerPosition * nat)) : option MatcherResult :=
  match es with
  | [] => None
  | (position, count) :: es' =>
      let rule := rules position in
      if (count <? min rule)%nat || (max rule <? count)%nat
      then Some {| message := "Squad composition invalid: " ++ positionName position
                              ++ " count " ++ pretty count ++ " not within "
                              ++ pretty (min rule) ++ "-" ++ pretty (max rule);
                   pass := false |}
      else firstViolation es'
  end.

Definition toHaveValidSquadComposition (received : list (option PlayerPosition))
  : MatcherResult :=
  let positionCounts :=
    fold_left countPosition received
      {| goalkeepers := 0; defenders := 0; midfielders := 0; forwards := 0 |} in
  match firstViolation (entries positionCounts) with
  | Some violation => violation
  | None =>
      let totalPlayers :=
        fold_left (fun sum count => sum + count)%nat (map snd (entries positionCounts)) 0%nat in
      if (totalPlayers <? 11)%nat || (15 <? totalPlayers)%nat
      then {| message := "Squad size " ++ pretty totalPlayers ++ " not within 11-15 players";
              pass := false |}
      else {| message := "Squad composition is valid"; pass := true |}
  end.

(** How many of the received players have the given position. *)
Definition playing (position : PlayerPosition) (received : list (option PlayerPosition)) : nat :=
  length (List.filter
            (fun p => match p, position with
                      | Some GOALKEEPER, GOALKEEPER | Some DEFENDER, DEFENDER
                      | Some MIDFIELDER, MIDFIELDER | Some FORWARD, FORWARD => true
                      | _, _ => false
                      end) received).

End Matchers.

(** ** Sample documents *)

Module Samples.

Import FantasyTeam.

Definition oid (n : string) : string := "64f1c0de0000000000000" ++ n.

(** The price 4.1, that is the binary64 number nearest to it. *)
Definition fourPointOne : float := 0x1.0666666666666p+2%float.

Definition dreamTeam : FantasyTeam :=
  newTeam "Dream XI" (oid "a01") (oid "b01") 100%float.

(** Sixteen different players. *)
Definition sixteen : list string :=
  map oid ["001"; "002"; "003"; "004"; "005"; "006"; "007"; "008";
           "009"; "010"; "011"; "012"; "013"; "014"; "015"; "016"].

(** Sixteen signings at 4.1 each. *)
Definition signSixteen : list SquadCall :=
  map (fun id => AddPlayer id fourPointOne true 1700000000000) sixteen.

(** A season of transfers at prices binary64 holds exactly: signings, a
    duplicate, an unaffordable player, captaincy changes, a release and a
    release of somebody not there. *)
Definition aSeasonOfCalls : list SquadCall :=
  [ AddPlayer (oid "001") 4.5%float true 1700000000000;
    AddPlayer (oid "002") 12.5%float true 1700000000001;
    AddPlayer (oid "001") 5%float false 1700000000002;
    AddPlayer (oid "003") 90%float true 1700000000003;
    SetCaptain (oid "001");
    SetViceCaptain (oid "002");
    SetViceCaptain (oid "001");
    RemovePlayer (oid "002");
    RemovePlayer (oid "009");
    SetCaptain (oid "009") ].

(** Two signings at 4.1. *)
Definition twoAtFourPointOne : list SquadCall :=
  [ AddPlayer (oid "001") fourPointOne true 1700000000000;
    AddPlayer (oid "002") fourPointOne true 1700000000001 ].

(** One selection, which is the captain. *)
Definition captainedSquad : FantasyTeam :=
  run [ AddPlayer (oid "001") fourPointOne true 1700000000000; SetCaptain (oid "001") ]
      dreamTeam.

(** Two selections; the second is vice-captain. *)
Definition pairSquad : FantasyTeam :=
  run [ AddPlayer (oid "001") fourPointOne true 1700000000000;
        AddPlayer (oid "002") 12.5%float true 1700000000001;
        SetViceCaptain (oid "002") ]
      dreamTeam.

(** The id of a player, written with upper-case digits, and as
    [toString()] prints the ObjectId made from it. *)
Definition upperCaseId : string := "64F1C0DE0000000000000ABC".
Definition lowerCaseId : string := "64f1c0de0000000000000abc".

(** The same player signed twice under the upper-case spelling of the
    id. *)
Definition signedTwice : list SquadCall :=
  [ AddPlayer upperCaseId 4.5%float true 1700000000000;
    AddPlayer upperCaseId 4.5%float false 1700000000001 ].

Definition striker : PlayerStats.PerformanceStats :=
  {| PlayerStats.appearances := 2; PlayerStats.starts := 2;
     PlayerStats.minutesPlayed := 171; PlayerStats.goals := 3;
     PlayerStats.assists := 1; PlayerStats.yellowCards := 1;
     PlayerStats.redCards := 0; PlayerStats.cleanSheets := 0;
     PlayerStats.saves := 1; PlayerStats.penaltiesSaved := 0;
     PlayerStats.penaltiesMissed := 1; PlayerStats.ownGoals := 0 |}.

(** Ten minutes, one red card, one own goal: the penalties outweigh the
    rest. *)
Definition sentOff : PlayerStats.PerformanceStats :=
  {| PlayerStats.appearances := 1; PlayerStats.starts := 0;
     PlayerStats.minutesPlayed := 10; PlayerStats.goals := 0;
     PlayerStats.assists := 0; PlayerStats.yellowCards := 0;
     PlayerStats.redCards := 1; PlayerStats.cleanSheets := 0;
     PlayerStats.saves := 0; PlayerStats.penaltiesSaved := 0;
     PlayerStats.penaltiesMissed := 0; PlayerStats.ownGoals := 1 |}.

Definition statsOf (p : PlayerStats.PerformanceStats) : PlayerStats.PlayerStats :=
  {| PlayerStats.playerId := oid "001"; PlayerStats.seasonId := oid "b01";
     PlayerStats.teamId := None; PlayerStats.gameweek := None;
     PlayerStats.performance := p;
     PlayerStats.fantasy :=
       {| PlayerStats.fantasyPoints := 0; PlayerStats.averagePoints := 0;
          PlayerStats.pointsPerMinute := 0; PlayerStats.currentPrice := 4;
          PlayerStats.priceChangeTotal := 0; PlayerStats.selectedByPercent := 0;
          PlayerStats.transfersIn := 0; PlayerStats.transfersOut := 0;
          PlayerStats.transfersInRound := 0; PlayerStats.transfersOutRound := 0 |};
     PlayerStats.isActive := true; PlayerStats.lastUpdated := 1700000000000 |}.

(** A fixture that has not kicked off: no scores, no result. *)
Definition fixture : Match.Match :=
  {| Match.sportmonksId := 18535517; Match.seasonId := oid "b01";
     Match.leagueId := oid "c01"; Match.gameweek := 1;
     Match.kickoffTime := 1700003600000;
     Match.homeTeamId := oid "d01"; Match.awayTeamId := oid "d02";
     Match.homeTeamScore := None; Match.awayTeamScore := None;
     Match.status := Match.SCHEDULED; Match.result := None;
     Match.currentMinute := None; Match.venue := None; Match.referee := None;
     Match.attendance := None; Match.isFantasyRelevant := true;
     Match.lastUpdated := None |}.

(** A season created Upcoming and never saved while it ran. *)
Definition staleSeason : Season.Season :=
  Season.newSeason 21646 "2023/2024" (oid "c01") 1691700000000 1716100000000 38.

Definition arsenal : Team.Team :=
  {| Team.sportmonksId := 19; Team.name := "Arsenal"; Team.shortCode := Some "ARS";
     Team.logoUrl := None; Team.foundedYear := Some 1886%Z;
     Team.country := Some "England"; Team.city := Some "London";
     Team.venue := Some "Emirates Stadium"; Team.leagueId := Some (oid "c01");
     Team.isActive := true; Team.deletedAt := None;
     Team.createdAt := 1690000000000; Team.updatedAt := 1690000000000 |}.

(** The instance of that team as loaded from a collection that holds it
    and one more team. *)
Definition arsenalLoaded : Team.Instance :=
  {| Team._id := oid "d01"; Team.this := arsenal;
     Team.teams := {[ oid "d01" := arsenal;
                      oid "d02" := Team.set_isActive false arsenal ]} |}.

(** A late substitute with a booking and a missed penalty. *)
Definition substitute : PlayerStats.PerformanceStats :=
  {| PlayerStats.appearances := 1; PlayerStats.starts := 0;
     PlayerStats.minutesPlayed := 10; PlayerStats.goals := 0;
     PlayerStats.assists := 0; PlayerStats.yellowCards := 1;
     PlayerStats.redCards := 0; PlayerStats.cleanSheets := 0;
     PlayerStats.saves := 0; PlayerStats.penaltiesSaved := 0;
     PlayerStats.penaltiesMissed := 1; PlayerStats.ownGoals := 0 |}.

End Samples.

(** * Properties *)

(** ** The fantasy points calculator *)

Section PlayerStatsFacts.

Import PlayerStats.
Local Open Scope Q_scope.

Lemma Qmake_half (z : Z) : (z # 2) == inject_Z z * (1 # 2).
Proof. unfold Qeq, inject_Z; simpl. lia. Qed.

Lemma minutes_cases (m : Z) :
  (if (m >=? 60)%Z then 2 else if (m >=? 1)%Z then 1 else 0) = inject_Z (minutesBonus m).
Proof.
  unfold minutesBonus. rewrite !Z.geb_leb.
  destruct (60 <=? m)%Z; [reflexivity|]. destruct (1 <=? m)%Z; reflexivity.
Qed.

(** The accumulated [points] are the closed formula, before clamping. *)
Lemma points_closed_form (p : PerformanceStats) :
  points p ==
    inject_Z (appearances p * 1 + goals p * 4 + assists p * 3 + cleanSheets p * 4
              + penaltiesSaved p * 5 - penaltiesMissed p * 2
              - yellowCards p * 1 - redCards p * 3 - ownGoals p * 2
              + minutesBonus (minutesPlayed p))
    + (saves p # 2).
Proof.
  rewrite Qmake_half. unfold Z.sub.
  rewrite !inject_Z_plus, !inject_Z_opp, !inject_Z_mult, <- minutes_cases.
  unfold points.
  destruct (minutesPlayed p >=? 60)%Z; [|destruct (minutesPlayed p >=? 1)%Z];
    change (inject_Z 1) with 1; change (inject_Z 2) with 2; change (inject_Z 3) with 3;
    change (inject_Z 4) with 4; change (inject_Z 5) with 5; ring.
Qed.

Lemma updateFantasyPoints_fantasyPoints (this : PlayerStats) :
  fantasyPoints (fantasy (after updateFantasyPoints this)) = Qmax 0 (points (performance this)).
Proof. reflexivity. Qed.

(** C1.  On every performance snapshot of integer counters (their sign
    plays no part) [updateFantasyPoints] returns, leaves the snapshot as it
    was, and stores in [fantasyPoints] the clamped formula of the
    specification, max(0, appearances*1 + goals*4 + assists*3 + cleanSheets*4
    + saves*0.5 + penaltiesSaved*5 - penaltiesMissed*2 - yellowCards*1
    - redCards*3 - ownGoals*2 + minutes bonus).  The result is never
    negative; it depends on the performance snapshot alone, so any two
    invocations on the same snapshot (on a different document, or on the
    document the first invocation left) store the same [fantasyPoints];
    [averagePoints] and [pointsPerMinute] are the result divided by the
    appearances and by the minutes played when those are positive, else 0.
    One more goal is worth 4 points whatever the player's position: the
    weight is [GOAL_FORWARD], not the larger goalkeeper, defender or
    midfielder weights of [FANTASY_POINTS]. *)
Theorem updateFantasyPoints_computes_spec (this : PlayerStats) :
  let p := performance this in
  let this' := after updateFantasyPoints this in
  let r := fantasyPoints (fantasy this') in
  result updateFantasyPoints this = Return tt /\
  performance this' = p /\
  r == computePoints_spec p /\
  0 <= r /\
  (forall other : PlayerStats, performance other = p ->
     fantasyPoints (fantasy (after updateFantasyPoints other)) = r) /\
  fantasyPoints (fantasy (after updateFantasyPoints this')) = r /\
  averagePoints (fantasy this') =
    (if (appearances p >? 0)%Z then r / inject_Z (appearances p) else 0) /\
  pointsPerMinute (fantasy this') =
    (if (minutesPlayed p >? 0)%Z then r / inject_Z (minutesPlayed p) else 0) /\
  points (add_goal p) == points p + 4 /\
  4 == FANTASY_POINTS.GOAL_FORWARD /\
  4 < FANTASY_POINTS.GOAL_MIDFIELDER /\
  4 < FANTASY_POINTS.GOAL_DEFENDER /\
  4 < FANTASY_POINTS.GOAL_GOALKEEPER.
Proof.
  intros p this' r. subst r this'.
  rewrite updateFantasyPoints_fantasyPoints. fold p.
  repeat split.
  - unfold computePoints_spec. now rewrite points_closed_form.
  - apply Q.le_max_l.
  - intros other Hp. rewrite updateFantasyPoints_fantasyPoints, Hp. reflexivity.
  - rewrite !points_closed_form. simpl.
    unfold Z.sub. rewrite !inject_Z_plus, !inject_Z_opp, !inject_Z_mult, !inject_Z_plus.
    change (inject_Z 1) with 1. ring.
Qed.

Example striker_points :
  fantasyPoints (fantasy (after updateFantasyPoints (Samples.statsOf Samples.striker)))
  == 33 # 2.
Proof. vm_compute. reflexivity. Qed.

Example striker_average :
  averagePoints (fantasy (after updateFantasyPoints (Samples.statsOf Samples.striker)))
  == 33 # 4.
Proof. vm_compute. reflexivity. Qed.

Example sentOff_clamped :
  points Samples.sentOff == -3 /\
  fantasyPoints (fantasy (after updateFantasyPoints (Samples.statsOf Samples.sentOff))) == 0.
Proof. split; vm_compute; reflexivity. Qed.

End PlayerStatsFacts.

(** ** The squad manager *)

(** Two readings of one binary64 value are the same number. *)
Ltac same_values :=
  repeat match goal with
         | H1 : Binary64.value ?a = Some ?x, H2 : Binary64.value ?a = Some ?y |- _ =>
             rewrite H1 in H2; injection H2 as <-
         end.

Section FantasyTeamFacts.

Import Binary64 FantasyTeam.
Local Open Scope nat_scope.

Implicit Types (t : FantasyTeam) (p s : PlayerSelection) (id : string) (price : float).

(** *** ObjectIds *)

Lemma canonical_ObjectId id : Types.canonical id = true -> Types.ObjectId id = Return id.
Proof.
  unfold Types.canonical, Types.ObjectId. intros [Hvalid Hsame%String.eqb_eq]%andb_true_iff.
  now rewrite Hvalid, Hsame.
Qed.

(** *** What [find] and [findIndex] return *)

Lemma find_playerId_Some id (l : list PlayerSelection) :
  is_Some (find (fun p => String.eqb (playerId p) id) l) <-> id ∈ map playerId l.
Proof.
  unfold find. induction l as [|x l IH]; simpl.
  - split; [intros [? [=]] | intros H; inversion H].
  - destruct (String.eqb_spec (playerId x) id) as [->|Hne].
    + split; [intros _; left | eauto].
    + rewrite IH. split; [now right | intros H; inversion H; subst; [congruence | assumption]].
Qed.

Lemma findIndex_Some {A} (f : A -> bool) (l : list A) (i : nat) :
  findIndex f l = Some i ->
  exists x, l !! i = Some x /\ f x = true /\ forall j y, j < i -> l !! j = Some y -> f y = false.
Proof.
  revert i. induction l as [|a l IH]; intros i; simpl; [discriminate|].
  destruct (f a) eqn:Hfa.
  - intros [= <-]. exists a. repeat split; [assumption | lia].
  - destruct (findIndex f l) as [k|]; simpl; [|discriminate].
    intros [= <-]. destruct (IH k eq_refl) as (x & Hx & Hfx & Hbefore).
    exists x. repeat split; try assumption.
    intros [|j] y Hj; simpl; [intros [= <-]; assumption | apply Hbefore; lia].
Qed.

Lemma findIndex_None {A} (f : A -> bool) (l : list A) :
  findIndex f l = None <-> forall x, x ∈ l -> f x = false.
Proof.
  induction l as [|a l IH]; simpl.
  - split; [intros _ x H; inversion H | reflexivity].
  - destruct (f a) eqn:Hfa.
    + split; [discriminate|]. intros H.
      assert (a ∈ a :: l) as Ha by left. apply H in Ha. congruence.
    + destruct (findIndex f l); simpl.
      * split; [discriminate|]. intros H.
        assert (Some n = None) as Hn; [|discriminate Hn].
        apply IH. intros x Hx. apply H. now right.
      * split; [|reflexivity]. intros _ x Hx. inversion Hx; subst; [assumption|].
        now apply IH.
Qed.

Lemma findIndex_playerId_None id (l : list PlayerSelection) :
  findIndex (fun p => String.eqb (playerId p) id) l = None <-> id ∉ map playerId l.
Proof.
  rewrite findIndex_None. split.
  - intros H Hin. apply list_elem_of_fmap in Hin as (x & -> & Hx).
    specialize (H x Hx). now rewrite String.eqb_refl in H.
  - intros H x Hx. apply String.eqb_neq. intros <-. apply H.
    apply list_elem_of_fmap. eauto.
Qed.

(** *** The methods, one equation each *)

Lemma addPlayer_unfold id price (st : bool) (now : Z) t :
  addPlayer id price st now t =
  if 15 <=? length (players t) then (Thrown SquadFullError, t)
  else if (remainingBudget t <? price)%float then (Thrown InsufficientBudgetError, t)
  else if bool_decide (is_Some (find (fun p => String.eqb (playerId p) id) (players t)))
  then (Thrown DuplicatePlayerError, t)
  else if Types.isValidObjectId id
  then (Return tt,
        set_totalValue (totalValue t + price)%float
          (set_remainingBudget (remainingBudget t - price)%float
             (set_players
                (players t ++ [newSelection (Types.toHexString id) price st now]) t)))
  else (Thrown Types.BSONError, t).
Proof.
  unfold addPlayer, bind, get, lift, Types.ObjectId. cbn beta iota.
  destruct (15 <=? length (players t)); [reflexivity|].
  destruct (remainingBudget t <? price)%float; [reflexivity|].
  destruct (bool_decide _); [reflexivity|].
  destruct (Types.isValidObjectId id); reflexivity.
Qed.

Lemma removePlayer_unfold id t :
  removePlayer id t =
  match findIndex (fun p => String.eqb (playerId p) id) (players t) with
  | None => (Thrown PlayerNotFoundError, t)
  | Some i =>
      match players t !! i with
      | None => (Thrown "TypeError", t)
      | Some player =>
          (Return tt,
           set_players (splice1 i (players t))
             (set_totalValue (totalValue t - purchasePrice player)%float
                (set_remainingBudget (remainingBudget t + purchasePrice player)%float t)))
      end
  end.
Proof.
  unfold removePlayer, bind, get. cbn beta iota.
  destruct (findIndex _ _) as [i|]; [|reflexivity].
  destruct (players t !! i); reflexivity.
Qed.

(** [removePlayer] throws exactly when the player is not selected; the
    index [findIndex] returns is always in range. *)
Lemma removePlayer_cases id t :
  (id ∉ playerIds t -> removePlayer id t = (Thrown PlayerNotFoundError, t)) /\
  (id ∈ playerIds t ->
     exists i player,
       players t !! i = Some player /\ playerId player = id /\
       removePlayer id t =
         (Return tt,
          set_players (splice1 i (players t))
            (set_totalValue (totalValue t - purchasePrice player)%float
               (set_remainingBudget (remainingBudget t + purchasePrice player)%float t)))).
Proof.
  rewrite removePlayer_unfold. unfold playerIds. split.
  - intros Hnot. now rewrite (proj2 (findIndex_playerId_None id (players t)) Hnot).
  - intros Hin.
    destruct (findIndex _ (players t)) as [i|] eqn:Hfind.
    + destruct (findIndex_Some _ _ _ Hfind) as (player & Hi & Hname & _).
      exists i, player. rewrite Hi. apply String.eqb_eq in Hname. now repeat split.
    + apply findIndex_playerId_None in Hfind. contradiction.
Qed.

Lemma setCaptain_unfold id t :
  setCaptain id t = (Return tt, set_players (map (setCaptain_each id) (players t)) t).
Proof. reflexivity. Qed.

Lemma setViceCaptain_unfold id t :
  setViceCaptain id t = (Return tt, set_players (map (setViceCaptain_each id) (players t)) t).
Proof. reflexivity. Qed.

(** *** Binary64 values *)

Lemma digits2_pos_shift (m : positive) (n : nat) :
  Z.pos (digits2_pos (Nat.iter n xO m)) = (Z.pos (digits2_pos m) + Z.of_nat n)%Z.
Proof.
  induction n as [|n IH]; simpl Nat.iter; [lia|].
  change (digits2_pos (xO ?p)) with (Pos.succ (digits2_pos p)).
  rewrite Pos2Z.inj_succ, IH. lia.
Qed.

Lemma pos_shift (m : positive) (n : nat) :
  Z.pos (Nat.iter n xO m) = (Z.pos m * 2 ^ Z.of_nat n)%Z.
Proof.
  induction n as [|n IH]; [simpl; lia|].
  simpl Nat.iter. rewrite Pos2Z.inj_xO, IH, Nat2Z.inj_succ, Z.pow_succ_r by lia. lia.
Qed.

Lemma magnitude_pos (m : positive) (e : Z) : (0 < inject_Z (Z.pos m) * 2 ^ e)%Q.
Proof. apply Qmult_lt_0_compat; [reflexivity | now apply Qpower_0_lt]. Qed.

Lemma scaled_eq (m1 m2 : positive) (e1 e2 : Z) :
  (e1 <= e2)%Z ->
  (inject_Z (Z.pos m1) * 2 ^ e1 == inject_Z (Z.pos m2) * 2 ^ e2)%Q ->
  Z.pos m1 = (Z.pos m2 * 2 ^ (e2 - e1))%Z.
Proof.
  intros Hle H.
  assert (~ (2 == 0)%Q) as H2 by discriminate.
  replace e2 with (e1 + (e2 - e1))%Z in H at 1 by lia.
  rewrite Qpower_plus in H by exact H2.
  assert (0 < 2 ^ e1)%Q as Hpos by now apply Qpower_0_lt.
  assert (inject_Z (Z.pos m1) == inject_Z (Z.pos m2) * 2 ^ (e2 - e1))%Q as H0.
  { apply (Qmult_inj_r _ _ (2 ^ e1)%Q).
    - intros Hz. rewrite Hz in Hpos. now apply (Qlt_irrefl 0).
    - rewrite H. ring. }
  change 2%Q with (inject_Z 2) in H0.
  rewrite <- Zpower_Qpower in H0 by lia. rewrite <- inject_Z_mult in H0.
  now apply inject_Z_injective.
Qed.

Lemma canonical_le (m1 m2 : positive) (e1 e2 : Z) :
  (e1 <= e2)%Z ->
  canonical_mantissa prec emax m1 e1 = true -> canonical_mantissa prec emax m2 e2 = true ->
  (inject_Z (Z.pos m1) * 2 ^ e1 == inject_Z (Z.pos m2) * 2 ^ e2)%Q ->
  e1 = e2 /\ m1 = m2.
Proof.
  intros Hle H1 H2 Heq. apply scaled_eq in Heq; [|exact Hle].
  assert (m1 = Nat.iter (Z.to_nat (e2 - e1)) xO m2) as Hm.
  { apply Pos2Z.inj. rewrite pos_shift, Z2Nat.id by lia. exact Heq. }
  pose proof (digits2_pos_shift m2 (Z.to_nat (e2 - e1))) as Hd.
  rewrite <- Hm, Z2Nat.id in Hd by lia.
  unfold canonical_mantissa, fexp in H1, H2. apply Z.eqb_eq in H1, H2.
  assert (e1 = e2) as He.
  { rewrite Hd in H1.
    replace (Z.pos (digits2_pos m2) + (e2 - e1) + e1)%Z
      with (Z.pos (digits2_pos m2) + e2)%Z in H1 by lia.
    congruence. }
  split; [exact He|]. subst e2. rewrite Z.sub_diag in Hm. exact Hm.
Qed.

(** A number has one binary64 representation. *)
Lemma canonical_unique (m1 m2 : positive) (e1 e2 : Z) :
  canonical_mantissa prec emax m1 e1 = true -> canonical_mantissa prec emax m2 e2 = true ->
  (inject_Z (Z.pos m1) * 2 ^ e1 == inject_Z (Z.pos m2) * 2 ^ e2)%Q ->
  e1 = e2 /\ m1 = m2.
Proof.
  intros H1 H2 Heq. destruct (Z.le_ge_cases e1 e2) as [Hle|Hge].
  - now apply canonical_le.
  - assert (e2 <= e1)%Z as Hle by lia. symmetry in Heq.
    destruct (canonical_le m2 m1 e2 e1 Hle H2 H1 Heq) as [He Hm]. now split.
Qed.

(** Two binary64 values that stand for the same number are [==] in
    JavaScript. *)
Lemma sameValue_eqb (a b : float) : sameValue a b = true -> (a =? b)%float = true.
Proof.
  unfold sameValue, value. rewrite FloatAxioms.eqb_spec.
  pose proof (Prim2SF_valid a) as Va. pose proof (Prim2SF_valid b) as Vb.
  destruct (Prim2SF a) as [sa|sa| |sa ma ea], (Prim2SF b) as [sb|sb| |sb mb eb];
    try discriminate; intros H%Qeq_bool_iff.
  - reflexivity.
  - exfalso. pose proof (magnitude_pos mb eb). destruct sb; lra.
  - exfalso. pose proof (magnitude_pos ma ea). destruct sa; lra.
  - simpl in Va, Vb. unfold bounded in Va, Vb.
    apply andb_true_iff in Va as [Va _], Vb as [Vb _].
    pose proof (magnitude_pos ma ea). pose proof (magnitude_pos mb eb).
    assert (sa = sb) as <- by (destruct sa, sb; try reflexivity; exfalso; lra).
    destruct (canonical_unique ma mb ea eb Va Vb) as [<- <-]; [destruct sa; lra|].
    unfold SFeqb, SFcompare. rewrite Z.compare_refl, Pos.compare_cont_refl.
    now destruct sa.
Qed.

Lemma exactly_spec (op : Q -> Q -> Q) (a b c : float) :
  exactly op a b c = true ->
  exists x y z, value a = Some x /\ value b = Some y /\ value c = Some z /\ (z == op x y)%Q.
Proof.
  unfold exactly. destruct (value a) as [x|], (value b) as [y|], (value c) as [z|];
    try discriminate.
  intros H%Qeq_bool_iff. now exists x, y, z.
Qed.

(** *** The budget equation *)

Lemma balanced_spec t :
  balanced t = true <->
  exists r v b, value (remainingBudget t) = Some r /\ value (totalValue t) = Some v /\
                value (budget t) = Some b /\ (r + v == b)%Q.
Proof.
  unfold balanced. split.
  - destruct (value (remainingBudget t)) as [r|], (value (totalValue t)) as [v|],
      (value (budget t)) as [b|]; try discriminate.
    intros H%Qeq_bool_iff. now exists r, v, b.
  - intros (r & v & b & -> & -> & -> & H). now apply Qeq_bool_iff.
Qed.

(** When the sum does not round, the equation of the numbers is the
    equation JavaScript evaluates. *)
Lemma balanced_balancedJs t : balanced t = true -> sumExact t = true -> balancedJs t = true.
Proof.
  intros (r & v & b & Hr & Hv & Hb & Heq)%balanced_spec
         (r0 & v0 & z & Hr0 & Hv0 & Hz & Hsum)%exactly_spec.
  same_values. unfold balancedJs. apply sameValue_eqb. unfold sameValue.
  rewrite Hz, Hb. apply Qeq_bool_iff. now rewrite Hsum.
Qed.

Lemma call_balanced (c : SquadCall) t :
  balanced t = true -> balancedJs t = true -> noRounding c t = true ->
  balanced (after (call c) t) = true /\ balancedJs (after (call c) t) = true.
Proof.
  intros Hb Hjs Hex.
  assert (sumExact (after (call c) t) = true \/ after (call c) t = t ->
          balanced (after (call c) t) = true ->
          balanced (after (call c) t) = true /\ balancedJs (after (call c) t) = true) as Hboth.
  { intros [Hsum|Hsame] Hb'; (split; [exact Hb'|]).
    - now apply balanced_balancedJs.
    - now rewrite Hsame. }
  destruct c as [id price st now|id|id|id]; simpl in *;
    [| |now split|now split]; unfold result, after in *.
  - rewrite addPlayer_unfold in *.
    destruct (15 <=? _); [now split|].
    destruct (remainingBudget t <? price)%float; [now split|].
    destruct (bool_decide _); [now split|].
    destruct (Types.isValidObjectId id); [|now split]. simpl in *.
    apply andb_true_iff in Hex as [[Hrem Hval]%andb_true_iff Hsum].
    apply Hboth; [now left|].
    apply exactly_spec in Hrem as (r & q & r' & Hr & Hq & Hr' & Hsub).
    apply exactly_spec in Hval as (v & q' & v' & Hv & Hq' & Hv' & Hadd).
    apply balanced_spec in Hb as (r0 & v0 & b & Hr0 & Hv0 & Hb0 & Heq).
    same_values. apply balanced_spec. exists r', v', b. simpl.
    repeat split; try assumption. rewrite Hsub, Hadd. lra.
  - rewrite removePlayer_unfold in *. unfold named in Hex.
    destruct (findIndex _ _) as [i|]; [|now split].
    destruct (players t !! i) as [player|]; [|now split]. simpl in *.
    apply andb_true_iff in Hex as [[Hrem Hval]%andb_true_iff Hsum].
    apply Hboth; [now left|].
    apply exactly_spec in Hrem as (r & q & r' & Hr & Hq & Hr' & Hadd).
    apply exactly_spec in Hval as (v & q' & v' & Hv & Hq' & Hv' & Hsub).
    apply balanced_spec in Hb as (r0 & v0 & b & Hr0 & Hv0 & Hb0 & Heq).
    same_values. apply balanced_spec. exists r', v', b. simpl.
    repeat split; try assumption. rewrite Hsub, Hadd. lra.
Qed.

Lemma call_budget (c : SquadCall) t : budget (after (call c) t) = budget t.
Proof.
  unfold after. destruct c as [id price st now|id|id|id]; simpl; try reflexivity.
  - rewrite addPlayer_unfold.
    destruct (15 <=? _); [reflexivity|].
    destruct (remainingBudget t <? price)%float; [reflexivity|].
    destruct (bool_decide _); [reflexivity|].
    destruct (Types.isValidObjectId id); reflexivity.
  - rewrite removePlayer_unfold.
    destruct (findIndex _ _) as [i|]; [|reflexivity].
    destruct (players t !! i); reflexivity.
Qed.

(** C2 (as amended).  On a team whose budget equation [remainingBudget +
    totalValue == budget] holds, of the numbers the three fields hold and
    as JavaScript evaluates it, the equation holds again in both readings
    after every call of any sequence of squad calls ([addPlayer] and
    [removePlayer] among them), whether the call returned or threw, as
    long as none of the additions and subtractions rounds: those the calls
    make on [remainingBudget] and [totalValue], and the sum of the two
    they leave.  And [budget] is what it was. *)
Theorem budget_invariant (cs : list SquadCall) t :
  balanced t = true -> balancedJs t = true -> noRoundingIn cs t = true ->
  Forall (fun t' => balanced t' = true /\ balancedJs t' = true) (trace cs t) /\
  balanced (run cs t) = true /\
  balancedJs (run cs t) = true /\
  budget (run cs t) = budget t.
Proof.
  revert t. induction cs as [|c cs IH]; intros t Hb Hjs Hex; simpl in *.
  - repeat split; [constructor | assumption | assumption].
  - apply andb_true_iff in Hex as [Hc Hcs].
    destruct (call_balanced c t Hb Hjs Hc) as [Hb' Hjs'].
    destruct (IH _ Hb' Hjs' Hcs) as (Htr & Hrun & Hrunjs & Hbudget).
    repeat split; [constructor; [now split | assumption] | assumption | assumption |].
    rewrite Hbudget. apply call_budget.
Qed.

(** *** The squad size *)

Lemma addPlayer_full id price (st : bool) (now : Z) t :
  15 <= length (players t) ->
  addPlayer id price st now t = (Thrown SquadFullError, t).
Proof.
  intros H. rewrite addPlayer_unfold.
  destruct (Nat.leb_spec 15 (length (players t))); [reflexivity | lia].
Qed.

Lemma call_size (c : SquadCall) t :
  length (players t) <= 15 -> length (players (after (call c) t)) <= 15.
Proof.
  unfold after. intros Hlen. destruct c as [id price st now|id|id|id]; simpl.
  - rewrite addPlayer_unfold.
    destruct (Nat.leb_spec 15 (length (players t))); [assumption|].
    destruct (remainingBudget t <? price)%float; [assumption|].
    destruct (bool_decide _); [assumption|].
    destruct (Types.isValidObjectId id); [|assumption].
    simpl. rewrite length_app. simpl. lia.
  - rewrite removePlayer_unfold.
    destruct (findIndex _ _) as [i|]; [|assumption].
    destruct (players t !! i) eqn:Hi; [|assumption].
    simpl. unfold splice1. rewrite length_delete by eauto. lia.
  - now rewrite length_map.
  - now rewrite length_map.
Qed.

(** C3.  From a squad of at most 15 selections, no sequence of squad calls
    ([addPlayer] calls among them) brings the count above 15: the bound
    holds after every call.  On a squad that holds 15 selections [addPlayer]
    throws the squad-full error and the squad it leaves is the same one,
    still of 15. *)
Theorem squad_size_bound (cs : list SquadCall) t :
  length (players t) <= 15 ->
  Forall (fun t' => length (players t') <= 15) (trace cs t) /\
  length (players (run cs t)) <= 15 /\
  (length (players (run cs t)) = 15 ->
   forall id price (st : bool) (now : Z),
     result (addPlayer id price st now) (run cs t) = Thrown SquadFullError /\
     after (addPlayer id price st now) (run cs t) = run cs t /\
     length (players (after (addPlayer id price st now) (run cs t))) = 15).
Proof.
  revert t. induction cs as [|c cs IH]; intros t Hlen.
  - simpl. repeat split; [constructor | assumption | | |];
      unfold result, after; rewrite addPlayer_full by lia; simpl; congruence.
  - pose proof (call_size c t Hlen) as Hc. destruct (IH _ Hc) as (Htr & Hrun & Hfull).
    simpl. repeat split; [constructor; assumption | assumption | | |];
      apply Hfull; assumption.
Qed.

(** *** [addPlayer], case by case *)



(** *** Captaincy *)

Lemma setCaptain_each_playerId id p : playerId (setCaptain_each id p) = playerId p.
Proof. unfold setCaptain_each. simpl. now destruct (String.eqb _ _). Qed.

Lemma setCaptain_each_isCaptain id p : isCaptain (setCaptain_each id p) = named id p.
Proof. unfold setCaptain_each, named. simpl. now destruct (String.eqb _ _). Qed.

Lemma setCaptain_each_isViceCaptain id p :
  isViceCaptain (setCaptain_each id p) = negb (named id p) && isViceCaptain p.
Proof. unfold setCaptain_each, named. simpl. now destruct (String.eqb _ _). Qed.

Lemma setViceCaptain_each_playerId id p : playerId (setViceCaptain_each id p) = playerId p.
Proof. unfold setViceCaptain_each. simpl. now destruct (String.eqb _ _). Qed.

Lemma setViceCaptain_each_isViceCaptain id p :
  isViceCaptain (setViceCaptain_each id p) = named id p.
Proof. unfold setViceCaptain_each, named. simpl. now destruct (String.eqb _ _). Qed.

Lemma setViceCaptain_each_isCaptain id p :
  isCaptain (setViceCaptain_each id p) = negb (named id p) && isCaptain p.
Proof. unfold setViceCaptain_each, named. simpl. now destruct (String.eqb _ _). Qed.

Lemma map_playerId_each (g : PlayerSelection -> PlayerSelection) (l : list PlayerSelection) :
  (forall p, playerId (g p) = playerId p) -> map playerId (map g l) = map playerId l.
Proof. intros Hg. rewrite map_map. apply map_ext. exact Hg. Qed.

Lemma filter_map_swap {A B} (f : B -> bool) (g : A -> B) (l : list A) :
  List.filter f (map g l) = map g (List.filter (fun x => f (g x)) l).
Proof.
  induction l as [|x l IH]; simpl; [reflexivity|].
  destruct (f (g x)); simpl; now rewrite IH.
Qed.

Lemma filter_length_mono {A} (f g : A -> bool) (l : list A) :
  (forall x, f x = true -> g x = true) ->
  length (List.filter f l) <= length (List.filter g l).
Proof.
  intros Hfg. induction l as [|x l IH]; simpl; [lia|].
  destruct (f x) eqn:Hf.
  - rewrite (Hfg x Hf). simpl. lia.
  - destruct (g x); simpl; lia.
Qed.

Lemma filter_length_delete {A} (f : A -> bool) (i : nat) (l : list A) :
  length (List.filter f (base.delete i l)) <= length (List.filter f l).
Proof.
  revert i. induction l as [|x l IH]; intros [|i]; simpl; try lia.
  - destruct (f x); simpl; lia.
  - specialize (IH i). destruct (f x); simpl; lia.
Qed.

Lemma map_delete {A B} (g : A -> B) (i : nat) (l : list A) :
  map g (base.delete i l) = base.delete i (map g l).
Proof.
  revert i. induction l as [|x l IH]; intros [|i]; simpl; try reflexivity.
  now rewrite IH.
Qed.

Lemma named_absent id (l : list PlayerSelection) :
  id ∉ map playerId l -> List.filter (named id) l = [].
Proof.
  induction l as [|x l IH]; simpl; [reflexivity|]. intros Hnot.
  unfold named at 1. destruct (String.eqb_spec (playerId x) id) as [Heq|Hne].
  - exfalso. apply Hnot. rewrite Heq. left.
  - apply IH. intros Hin. apply Hnot. now right.
Qed.

Lemma named_at_most_once id (l : list PlayerSelection) :
  NoDup (map playerId l) -> length (List.filter (named id) l) <= 1.
Proof.
  induction l as [|x l IH]; simpl; [lia|]. intros Hnd.
  apply NoDup_cons in Hnd as [Hx Hnd]. unfold named at 1.
  destruct (String.eqb_spec (playerId x) id) as [Heq|Hne].
  - rewrite named_absent by (rewrite <- Heq; exact Hx). simpl. lia.
  - now apply IH.
Qed.

Lemma named_once id (l : list PlayerSelection) :
  NoDup (map playerId l) -> id ∈ map playerId l ->
  exists p, List.filter (named id) l = [p] /\ playerId p = id.
Proof.
  induction l as [|x l IH]; simpl; intros Hnd Hin; [inversion Hin|].
  apply NoDup_cons in Hnd as [Hx Hnd]. unfold named at 1.
  destruct (String.eqb_spec (playerId x) id) as [Heq|Hne].
  - exists x. rewrite named_absent by (rewrite <- Heq; exact Hx). now split.
  - apply IH; [assumption|]. inversion Hin; subst; [congruence | assumption].
Qed.

(** A squad with exactly one selection for the named player. *)
Lemma named_exactly_once id (l : list PlayerSelection) :
  length (List.filter (named id) l) = 1 ->
  exists p, List.filter (named id) l = [p] /\ playerId p = id.
Proof.
  destruct (List.filter (named id) l) as [|p [|q rest]] eqn:Hfilter; simpl;
    try discriminate.
  intros _. exists p. split; [reflexivity|].
  assert (In p (List.filter (named id) l)) as Hin by (rewrite Hfilter; now left).
  apply List.filter_In in Hin as [_ Hp]. now apply String.eqb_eq in Hp.
Qed.

(** C5 (as amended).  On a squad where exactly one selection is for the
    named player, [setCaptain] returns and afterwards exactly one
    selection is captain: the named player's.  That selection is not
    vice-captain, every other selection has [isCaptain = false], and the
    selected players are who they were. *)
Theorem setCaptain_exclusive id t :
  length (List.filter (named id) (players t)) = 1 ->
  let t' := after (setCaptain id) t in
  result (setCaptain id) t = Return tt /\
  captainIs id t' /\
  (forall p, p ∈ players t' -> isCaptain p = true <-> playerId p = id) /\
  playerIds t' = playerIds t.
Proof.
  intros Hone t'. subst t'. unfold result, after, captainIs, captains, playerIds.
  rewrite setCaptain_unfold. simpl.
  split; [reflexivity|]. split; [|split].
  - rewrite filter_map_swap.
    rewrite (List.filter_ext _ (named id)) by (intros; apply setCaptain_each_isCaptain).
    destruct (named_exactly_once id (players t) Hone) as (p0 & Hp0 & Hid).
    exists (setCaptain_each id p0). rewrite Hp0. simpl.
    rewrite setCaptain_each_playerId, setCaptain_each_isViceCaptain.
    unfold named. rewrite Hid, String.eqb_refl. now repeat split.
  - intros p (q & -> & Hq)%list_elem_of_fmap.
    rewrite setCaptain_each_isCaptain, setCaptain_each_playerId. unfold named.
    apply String.eqb_eq.
  - apply map_playerId_each, setCaptain_each_playerId.
Qed.

(** *** The captaincy invariant of squads built by the four methods *)

Lemma filter_snoc_false {A} (f : A -> bool) (l : list A) (x : A) :
  f x = false -> List.filter f (l ++ [x]) = List.filter f l.
Proof. intros Hx. rewrite List.filter_app. simpl. rewrite Hx. apply app_nil_r. Qed.

Lemma addPlayer_good id price (st : bool) (now : Z) t :
  Types.canonical id = true ->
  goodSquad t -> goodSquad (after (addPlayer id price st now) t).
Proof.
  unfold after. rewrite addPlayer_unfold.
  intros [Hvalid Hsame%String.eqb_eq]%andb_true_iff Hgood. rewrite Hvalid, Hsame.
  destruct (15 <=? _); [assumption|].
  destruct (remainingBudget t <? price)%float; [assumption|].
  destruct (bool_decide (is_Some _)) eqn:Hdup; [assumption|].
  apply bool_decide_eq_false in Hdup. rewrite find_playerId_Some in Hdup.
  destruct Hgood as (Hnd & Hc & Hv & Hboth).
  unfold goodSquad, captaincyInvariant, captains, viceCaptains, playerIds in *. simpl.
  rewrite map_app, !filter_snoc_false by reflexivity. simpl.
  repeat split; try assumption.
  - apply NoDup_app. repeat split; [assumption | | apply NoDup_singleton].
    intros x Hx ->%list_elem_of_singleton. contradiction.
  - apply Forall_app. split; [assumption|]. now repeat constructor.
Qed.

Lemma removePlayer_good id t : goodSquad t -> goodSquad (after (removePlayer id) t).
Proof.
  unfold after. rewrite removePlayer_unfold. intros Hgood.
  destruct (findIndex _ _) as [i|]; [|assumption].
  destruct (players t !! i); [|assumption].
  destruct Hgood as (Hnd & Hc & Hv & Hboth).
  unfold goodSquad, captaincyInvariant, captains, viceCaptains, playerIds, splice1 in *.
  simpl. repeat split.
  - rewrite map_delete. eapply sublist_NoDup; [eassumption | apply sublist_delete].
  - etransitivity; [apply filter_length_delete | assumption].
  - etransitivity; [apply filter_length_delete | assumption].
  - now apply Forall_delete.
Qed.

Lemma setCaptain_good id t : goodSquad t -> goodSquad (after (setCaptain id) t).
Proof.
  unfold after. rewrite setCaptain_unfold. intros (Hnd & Hc & Hv & Hboth).
  unfold goodSquad, captaincyInvariant, captains, viceCaptains, playerIds in *. simpl.
  rewrite map_playerId_each by apply setCaptain_each_playerId.
  rewrite !filter_map_swap, !length_map. repeat split; [assumption | | |].
  - rewrite (List.filter_ext _ (named id)) by (intros; apply setCaptain_each_isCaptain).
    now apply named_at_most_once.
  - etransitivity; [|exact Hv]. apply filter_length_mono. intros x.
    rewrite setCaptain_each_isViceCaptain. now intros [_ ?]%andb_true_iff.
  - apply Forall_forall. intros q (q0 & -> & _)%list_elem_of_fmap.
    rewrite setCaptain_each_isCaptain, setCaptain_each_isViceCaptain.
    now destruct (named id q0).
Qed.

Lemma setViceCaptain_good id t : goodSquad t -> goodSquad (after (setViceCaptain id) t).
Proof.
  unfold after. rewrite setViceCaptain_unfold. intros (Hnd & Hc & Hv & Hboth).
  unfold goodSquad, captaincyInvariant, captains, viceCaptains, playerIds in *. simpl.
  rewrite map_playerId_each by apply setViceCaptain_each_playerId.
  rewrite !filter_map_swap, !length_map. repeat split; [assumption | | |].
  - etransitivity; [|exact Hc]. apply filter_length_mono. intros x.
    rewrite setViceCaptain_each_isCaptain. now intros [_ ?]%andb_true_iff.
  - rewrite (List.filter_ext _ (named id)) by (intros; apply setViceCaptain_each_isViceCaptain).
    now apply named_at_most_once.
  - apply Forall_forall. intros q (q0 & -> & _)%list_elem_of_fmap.
    rewrite setViceCaptain_each_isCaptain, setViceCaptain_each_isViceCaptain.
    destruct (named id q0); [reflexivity | apply andb_false_r].
Qed.

Lemma call_good (c : SquadCall) t :
  canonicalCall c = true -> goodSquad t -> goodSquad (after (call c) t).
Proof.
  destruct c; simpl; intros Hc;
    [now apply addPlayer_good | apply removePlayer_good
    | apply setCaptain_good | apply setViceCaptain_good].
Qed.

Lemma empty_good t : players t = [] -> goodSquad t.
Proof.
  intros Hnil.
  unfold goodSquad, captaincyInvariant, captains, viceCaptains, playerIds.
  rewrite Hnil. simpl. repeat split; [constructor | lia | lia | constructor].
Qed.

Lemma trace_good (cs : list SquadCall) t :
  forallb canonicalCall cs = true ->
  goodSquad t -> Forall goodSquad (trace cs t) /\ goodSquad (run cs t).
Proof.
  revert t. induction cs as [|c cs IH]; intros t Hcs Hgood; simpl in *.
  - split; [constructor | assumption].
  - apply andb_true_iff in Hcs as [Hc Hcs].
    pose proof (call_good c t Hc Hgood) as Hgood'. destruct (IH _ Hcs Hgood').
    split; [constructor; assumption | assumption].
Qed.

(** *** The theorems at work on the sample squads *)

Import Samples.

Lemma budget_invariant_witness :
  balanced dreamTeam = true /\ balancedJs dreamTeam = true /\
  noRoundingIn aSeasonOfCalls dreamTeam = true /\
  Forall (fun t' => balanced t' = true /\ balancedJs t' = true)
    (trace aSeasonOfCalls dreamTeam) /\
  balancedJs (run aSeasonOfCalls dreamTeam) = true.
Proof.
  assert (balanced dreamTeam = true) as Hstart by (vm_compute; reflexivity).
  assert (balancedJs dreamTeam = true) as Hjs by (vm_compute; reflexivity).
  assert (noRoundingIn aSeasonOfCalls dreamTeam = true) as Hexact
    by (vm_compute; reflexivity).
  destruct (budget_invariant aSeasonOfCalls dreamTeam Hstart Hjs Hexact)
    as (Htr & _ & Hrun & _).
  split; [exact Hstart | split; [exact Hjs | split; [exact Hexact | split]]];
    [exact Htr | exact Hrun].
Defined.

(** C2 as the specification states it fails: from a budget of 100, two
    signings at 4.1 both return and leave [remainingBudget] at
    91.80000000000001 and [totalValue] at 8.2, whose sum, as JavaScript
    computes it and as a sum of numbers, is not 100 but more. *)
Lemma budget_off_after_two_signings :
  let first := after (addPlayer (oid "001") fourPointOne true 1700000000000) dreamTeam in
  let t := run twoAtFourPointOne dreamTeam in
  balancedJs dreamTeam = true /\ balanced dreamTeam = true /\
  result (addPlayer (oid "001") fourPointOne true 1700000000000) dreamTeam = Return tt /\
  result (addPlayer (oid "002") fourPointOne true 1700000000001) first = Return tt /\
  balancedJs t = false /\ balanced t = false /\
  (budget t <? remainingBudget t + totalValue t)%float = true.
Proof. vm_compute. repeat split. Qed.

Lemma squad_size_bound_witness :
  length (players dreamTeam) <= 15 /\
  length (players (run signSixteen dreamTeam)) = 15 /\
  result (addPlayer (oid "017") fourPointOne true 1700000000016) (run signSixteen dreamTeam)
    = Thrown SquadFullError /\
  length (players (after (addPlayer (oid "017") fourPointOne true 1700000000016)
                         (run signSixteen dreamTeam))) = 15.
Proof.
  assert (length (players dreamTeam) <= 15) as Hstart by (simpl; lia).
  destruct (squad_size_bound signSixteen dreamTeam Hstart) as (_ & _ & Hfull).
  assert (length (players (run signSixteen dreamTeam)) = 15) as Hlen
    by (vm_compute; reflexivity).
  destruct (Hfull Hlen (oid "017") fourPointOne true 1700000000016%Z)
    as (Hthrown & _ & Hstill).
  repeat split; assumption.
Defined.



Lemma setCaptain_exclusive_witness :
  length (List.filter (named (oid "002")) (players pairSquad)) = 1 /\
  captainIs (oid "002") (after (setCaptain (oid "002")) pairSquad).
Proof.
  assert (length (List.filter (named (oid "002")) (players pairSquad)) = 1) as Hone
    by (vm_compute; reflexivity).
  destruct (setCaptain_exclusive (oid "002") pairSquad Hone) as (_ & Hcap & _).
  split; assumption.
Defined.

(** C5 as the specification states it fails.  On a squad whose only
    selection, the captain, is another player, [setCaptain] for a player
    who is not selected returns and leaves nobody captain.  On a squad
    that holds two selections of one player, [setCaptain] for that player
    returns and leaves two captains. *)
Lemma setCaptain_none_or_two_captains :
  let twice := run signedTwice dreamTeam in
  (captainIs (oid "001") captainedSquad /\
   result (setCaptain (oid "002")) captainedSquad = Return tt /\
   captains (after (setCaptain (oid "002")) captainedSquad) = [] /\
   ~ captainIs (oid "002") (after (setCaptain (oid "002")) captainedSquad)) /\
  (playerIds twice = [lowerCaseId; lowerCaseId] /\
   result (setCaptain lowerCaseId) twice = Return tt /\
   length (captains (after (setCaptain lowerCaseId) twice)) = 2 /\
   ~ captainIs lowerCaseId (after (setCaptain lowerCaseId) twice)).
Proof.
  split; [split; [|split; [|split]] | split; [|split; [|split]]];
    try (vm_compute; reflexivity).
  - eexists. vm_compute. repeat split.
  - intros (s & Hs & _). vm_compute in Hs. discriminate Hs.
  - intros (s & Hs & _). vm_compute in Hs. discriminate Hs.
Qed.

(** C6 on the code.  From the sample team, which has no selections, the
    same player is signed twice under the upper-case spelling of the id:
    both calls return.  [setCaptain] with the id in lower case then
    returns and leaves two captains, so the captaincy invariant does not
    hold of a team the four methods built. *)
Lemma two_captains_after_signing_twice :
  let signed := after (addPlayer upperCaseId 4.5 true 1700000000000) dreamTeam in
  let twice := after (addPlayer upperCaseId 4.5 false 1700000000001) signed in
  let t := after (setCaptain lowerCaseId) twice in
  players dreamTeam = [] /\
  result (addPlayer upperCaseId 4.5 true 1700000000000) dreamTeam = Return tt /\
  result (addPlayer upperCaseId 4.5 false 1700000000001) signed = Return tt /\
  result (setCaptain lowerCaseId) twice = Return tt /\
  t = run (signedTwice ++ [SetCaptain lowerCaseId]) dreamTeam /\
  length (captains t) = 2 /\
  ~ captaincyInvariant t.
Proof.
  repeat split.
  intros [Hcaptains _]. vm_compute in Hcaptains. lia.
Qed.

(** The guards of [addPlayer] in their order: on a full squad an
    unaffordable player, and a player already selected, meet the squad-full
    error. *)
Example full_squad_first :
  result (addPlayer (oid "017") 1000 true 1700000000016) (run signSixteen dreamTeam)
    = Thrown SquadFullError /\
  result (addPlayer (oid "001") 1 true 1700000000016) (run signSixteen dreamTeam)
    = Thrown SquadFullError /\
  result (addPlayer (oid "001") 1000 true 1700000000016) captainedSquad
    = Thrown InsufficientBudgetError /\
  result (addPlayer (oid "001") 1 true 1700000000016) captainedSquad
    = Thrown DuplicatePlayerError.
Proof. repeat split; vm_compute; reflexivity. Qed.

End FantasyTeamFacts.

(** ** The season state machine *)

Section SeasonFacts.

Import Season.
Local Open Scope Z_scope.

Implicit Types (s : Season) (now : Z).

Lemma status_eqb_eq (a b : SeasonStatus) : status_eqb a b = true <-> a = b.
Proof. destruct a, b; simpl; split; congruence. Qed.

Lemma preSave_upcoming now s :
  status s = UPCOMING -> startDate s <= now <= endDate s ->
  preSave now s = set_status ACTIVE s.
Proof.
  intros Hst [Hlo Hhi]. unfold preSave. rewrite Hst. simpl.
  destruct (Z.leb_spec (startDate s) now); [|lia].
  rewrite Z.geb_leb. destruct (Z.leb_spec now (endDate s)); [reflexivity | lia].
Qed.

Lemma preSave_active_over now s :
  status s = ACTIVE -> endDate s < now ->
  preSave now s = set_isFantasyActive false (set_status COMPLETED s).
Proof.
  intros Hst Hover. unfold preSave. rewrite Hst. simpl.
  destruct (Z.ltb_spec (endDate s) now); [reflexivity | lia].
Qed.

Lemma preSave_active_running now s :
  status s = ACTIVE -> now <= endDate s -> preSave now s = s.
Proof.
  intros Hst Hrun. unfold preSave. rewrite Hst. simpl.
  destruct (Z.ltb_spec (endDate s) now); [lia | reflexivity].
Qed.

Lemma preSave_settled now s :
  status s = COMPLETED \/ status s = CANCELLED -> preSave now s = s.
Proof. intros [Hst|Hst]; unfold preSave; rewrite Hst; reflexivity. Qed.

(** [save], one equation. *)
Lemma save_unfold now s :
  save now s =
  if documentValid s then (Return tt, preSave now s) else (Rejected ValidationError, s).
Proof. unfold save, bind, get. cbn beta iota. now destruct (documentValid s). Qed.

(** The save is fulfilled exactly when the document passes validation. *)
Lemma save_fulfilled now s : Js.result (save now) s = Return tt <-> documentValid s = true.
Proof.
  unfold Js.result. rewrite save_unfold.
  destruct (documentValid s); simpl; split; congruence.
Qed.

(** A save that is fulfilled has run the hook; a save that is not has
    changed nothing. *)
Lemma after_save now s :
  after (save now) s = if documentValid s then preSave now s else s.
Proof. unfold after. rewrite save_unfold. now destruct (documentValid s). Qed.

(** C7.  When a season is saved at time [now], that is when its [save()]
    is fulfilled, as it is for every season the schema accepts: an
    Upcoming season with [startDate <= now <= endDate] is Active
    afterwards, and an Active season with [endDate < now] is Completed
    afterwards with [isFantasyActive = false].  A save leaves a Cancelled
    season as it is, status included, whether it is fulfilled or not. *)
Theorem save_transitions now s :
  let s' := after (save now) s in
  (documentValid s = true -> Js.result (save now) s = Return tt) /\
  (Js.result (save now) s = Return tt ->
     (status s = UPCOMING -> startDate s <= now <= endDate s -> status s' = ACTIVE) /\
     (status s = ACTIVE -> endDate s < now ->
        status s' = COMPLETED /\ isFantasyActive s' = false)) /\
  (status s = CANCELLED -> status s' = CANCELLED /\ s' = s).
Proof.
  intros s'. subst s'. rewrite after_save. split; [|split].
  - apply save_fulfilled.
  - intros ->%save_fulfilled. split.
    + intros Hst Hin. now rewrite preSave_upcoming.
    + intros Hst Hover. now rewrite preSave_active_over.
  - intros Hst. destruct (documentValid s); [|now split].
    rewrite preSave_settled by auto. now split.
Qed.

Lemma activateSeason_unfold now s :
  status s = UPCOMING ->
  activateSeason now s = save now (set_isFantasyActive true (set_status ACTIVE s)).
Proof. intros Hst. unfold activateSeason, bind, get. cbn beta iota. now rewrite Hst. Qed.

(** C10 (as amended).  The pre-save hook writes [status] and
    [isFantasyActive] only: every other path of the season is what it was.
    When the hook promotes an Upcoming season to Active it leaves
    [isFantasyActive] as it was, whereas [activateSeason] on an Upcoming
    season assigns [status = Active] and [isFantasyActive = true] and then
    saves; the flag is still true after that save when [now <= endDate],
    and when [endDate < now], on a season the schema accepts, the hook
    completes the season in that same save and the flag is false.  So a
    new season the schema accepts, whose [isFantasyActive] defaults to
    false, saved within its dates is Active with [isFantasyActive =
    false]. *)
Theorem preSave_frame now s :
  let s' := preSave now s in
  (sportmonksId s' = sportmonksId s /\ name s' = name s /\ leagueId s' = leagueId s /\
   startDate s' = startDate s /\ endDate s' = endDate s /\
   currentGameweek s' = currentGameweek s /\ totalGameweeks s' = totalGameweeks s /\
   transferDeadline s' = transferDeadline s) /\
  (status s = UPCOMING -> startDate s <= now <= endDate s ->
     status s' = ACTIVE /\ isFantasyActive s' = isFantasyActive s) /\
  (status s = UPCOMING ->
     activateSeason now s = save now (set_isFantasyActive true (set_status ACTIVE s)) /\
     returned (Js.result (activateSeason now) s) = true /\
     (now <= endDate s ->
        status (after (activateSeason now) s) = ACTIVE /\
        isFantasyActive (after (activateSeason now) s) = true) /\
     (documentValid s = true ->
        Js.result (activateSeason now) s = Return tt /\
        (endDate s < now ->
           status (after (activateSeason now) s) = COMPLETED /\
           isFantasyActive (after (activateSeason now) s) = false))) /\
  (forall (sportmonksId' : Z) (name' leagueId' : string) (startDate' endDate' gameweeks : Z),
     let fresh := newSeason sportmonksId' name' leagueId' startDate' endDate' gameweeks in
     documentValid fresh = true -> startDate' <= now <= endDate' ->
     Js.result (save now) fresh = Return tt /\
     status (after (save now) fresh) = ACTIVE /\
     isFantasyActive (after (save now) fresh) = false).
Proof.
  intros s'. subst s'. split; [|split; [|split]].
  - unfold preSave.
    destruct (status_eqb (status s) UPCOMING && _ && _);
      [now repeat split | destruct (status_eqb (status s) ACTIVE && _); now repeat split].
  - intros Hst Hin. now rewrite preSave_upcoming.
  - intros Hst.
    assert (documentValid (set_isFantasyActive true (set_status ACTIVE s)) = documentValid s)
      as Hvalid' by reflexivity.
    split; [now apply activateSeason_unfold|].
    unfold Js.result, after. rewrite activateSeason_unfold, save_unfold, Hvalid' by assumption.
    split; [now destruct (documentValid s)|]. split.
    + intros Hrun. destruct (documentValid s); simpl; [|now split].
      now rewrite preSave_active_running.
    + intros ->. simpl. split; [reflexivity|].
      intros Hover. now rewrite preSave_active_over.
  - intros sportmonksId' name' leagueId' startDate' endDate' gameweeks fresh Hvalid Hin.
    unfold Js.result, after. rewrite save_unfold, Hvalid. simpl.
    now rewrite preSave_upcoming.
Qed.

(** C10 as the specification states it fails: the sample season, which
    the schema accepts, is Upcoming and its [endDate] has passed;
    [activateSeason] returns, its save is fulfilled, and the season is
    left Completed with [isFantasyActive = false]. *)
Lemma activateSeason_after_the_end :
  let s' := after (activateSeason 1720000000000) Samples.staleSeason in
  status Samples.staleSeason = UPCOMING /\
  documentValid Samples.staleSeason = true /\
  Js.result (activateSeason 1720000000000) Samples.staleSeason = Return tt /\
  status s' = COMPLETED /\
  isFantasyActive s' = false.
Proof. repeat split. Qed.

(** No method of the season leaves the Cancelled status. *)
Lemma cancelled_is_final now (deadline : Z) s :
  status s = CANCELLED ->
  status (after (save now) s) = CANCELLED /\
  status (after (activateSeason now) s) = CANCELLED /\
  status (after (completeSeason now) s) = CANCELLED /\
  status (after (advanceGameweek now) s) = CANCELLED /\
  status (after (setTransferDeadline deadline now) s) = CANCELLED.
Proof.
  intros Hst.
  assert (forall s0, status s0 = CANCELLED -> status (snd (save now s0)) = CANCELLED) as Hsave.
  { intros s0 Hs0. rewrite save_unfold. destruct (documentValid s0); [|assumption].
    simpl. now rewrite preSave_settled by auto. }
  unfold after, activateSeason, completeSeason, advanceGameweek,
    setTransferDeadline, bind, get, modify. cbn beta iota. rewrite Hst. simpl.
  repeat split.
  - now apply Hsave.
  - assumption.
  - assumption.
  - destruct (_ <? _); simpl; [|assumption]. now apply Hsave.
  - destruct (_ || _); simpl; [assumption|]. now apply Hsave.
Qed.

Example staleSeason_promoted :
  Js.result (save 1700000000000) Samples.staleSeason = Return tt /\
  status (after (save 1700000000000) Samples.staleSeason) = ACTIVE /\
  isFantasyActive (after (save 1700000000000) Samples.staleSeason) = false.
Proof. repeat split. Qed.

(** A season with 60 gameweeks does not pass validation: its save is
    rejected and the season, within its dates, stays Upcoming. *)
Example sixty_gameweeks_rejected :
  let long := newSeason 21646 "2023/2024" (Samples.oid "c01") 1691700000000 1716100000000 60 in
  Js.result (save 1700000000000) long = Rejected ValidationError /\
  after (save 1700000000000) long = long.
Proof. split; reflexivity. Qed.

End SeasonFacts.

(** ** Match results *)

Section MatchFacts.

Import Match.
Local Open Scope Z_scope.

Implicit Types (m : Match) (now : Z).

Lemma updateScore_unfold (homeGoals awayGoals now : Z) m :
  updateScore homeGoals awayGoals now m =
  (Return tt,
   set_lastUpdated (Some now)
     (set_result
        (Some (if homeGoals >? awayGoals then HOME_WIN
               else if awayGoals >? homeGoals then AWAY_WIN else DRAW))
        (set_awayTeamScore
           (Some match awayTeamScore m with
                 | None => newScore (awayTeamId m) awayGoals
                 | Some score => set_goals awayGoals score
                 end)
           (set_homeTeamScore
              (Some match homeTeamScore m with
                    | None => newScore (homeTeamId m) homeGoals
                    | Some score => set_goals homeGoals score
                    end) m)))).
Proof.
  unfold updateScore, bind, get, modify, save, ret.
  destruct m as [? ? ? ? ? ? ? home away ? ? ? ? ? ? ? ?]. simpl.
  destruct home, away; simpl;
    destruct (homeGoals >? awayGoals); try reflexivity;
    destruct (awayGoals >? homeGoals); reflexivity.
Qed.

Lemma compareGoals_branches (homeGoals awayGoals : Z) :
  (if homeGoals >? awayGoals then HOME_WIN
   else if awayGoals >? homeGoals then AWAY_WIN else DRAW)
  = compareGoals homeGoals awayGoals.
Proof.
  unfold compareGoals. rewrite !Z.gtb_ltb.
  destruct (Z.compare_spec homeGoals awayGoals);
    destruct (Z.ltb_spec awayGoals homeGoals); try lia;
    destruct (Z.ltb_spec homeGoals awayGoals); try lia; reflexivity.
Qed.

Lemma finishMatch_result now m : result (after (finishMatch now) m) = result m.
Proof.
  unfold after, finishMatch, bind, get. cbn beta iota.
  destruct (includes _ _); reflexivity.
Qed.

(** C9 (as amended).  [updateScore] returns in every status; it stores the
    two goal counts and derives [result] from their comparison: home_win
    when the home goals exceed the away goals, away_win when the away goals
    exceed the home goals, draw when they are equal.  It does so whatever
    the match status is, and leaves the status as it was.  [finishMatch]
    leaves [result] as it was. *)
Theorem updateScore_derives_result (homeGoals awayGoals now : Z) m :
  let m' := after (updateScore homeGoals awayGoals now) m in
  Js.result (updateScore homeGoals awayGoals now) m = Return tt /\
  result m' = Some (compareGoals homeGoals awayGoals) /\
  (homeGoals > awayGoals -> result m' = Some HOME_WIN) /\
  (awayGoals > homeGoals -> result m' = Some AWAY_WIN) /\
  (homeGoals = awayGoals -> result m' = Some DRAW) /\
  (goals <$> homeTeamScore m' = Some homeGoals) /\
  (goals <$> awayTeamScore m' = Some awayGoals) /\
  status m' = status m /\
  (forall now', result (after (finishMatch now') m) = result m).
Proof.
  intros m'. subst m'. unfold Js.result, after. rewrite updateScore_unfold. simpl.
  rewrite compareGoals_branches. unfold compareGoals.
  repeat split.
  - intros H. now rewrite (proj2 (Z.compare_gt_iff _ _)) by lia.
  - intros H. now rewrite (proj2 (Z.compare_lt_iff _ _)) by lia.
  - intros ->. now rewrite Z.compare_refl.
  - now destruct (homeTeamScore m).
  - now destruct (awayTeamScore m).
  - intros now'. apply finishMatch_result.
Qed.

(** C9 as the specification states it fails: the sample fixture has no
    result and is Scheduled; [updateScore 2 1] gives it the result home_win
    while it is still Scheduled. *)
Lemma result_before_finish :
  let m' := after (updateScore 2 1 1700003700000) Samples.fixture in
  resultOnlyWhenFinished Samples.fixture /\
  status m' = SCHEDULED /\
  result m' = Some HOME_WIN /\
  ~ resultOnlyWhenFinished m'.
Proof.
  repeat split.
  - intros [r Hr]. discriminate Hr.
  - intros Hclaim. assert (SCHEDULED = FINISHED) as Habs; [|discriminate Habs].
    apply Hclaim. now exists HOME_WIN.
Qed.

End MatchFacts.

(** ** Soft delete and the default query filter *)

Section TeamFacts.

Import Team.

Implicit Types (i : Instance) (c : gmap string Team) (q : Filter) (id : string) (t : Team).

Lemma find_lookup q c id t :
  find q c !! id = Some t <-> c !! id = Some t /\ matches (preFind q) id t = true.
Proof. unfold find. now rewrite map_lookup_filter_Some. Qed.

Lemma find_lookup_None q c id :
  find q c !! id = None <->
  c !! id = None \/ exists t, c !! id = Some t /\ matches (preFind q) id t = false.
Proof.
  unfold find. rewrite map_lookup_filter_None. simpl. split.
  - intros [Hnone|Hno]; [now left|].
    destruct (c !! id) as [t|] eqn:Hc; [right | now left].
    exists t. split; [reflexivity|]. apply not_true_is_false. now apply Hno.
  - intros [Hnone|(t & Hc & Hm)]; [now left | right].
    intros t' Hc'. rewrite Hc in Hc'. injection Hc' as <-. now rewrite Hm.
Qed.

(** The hook leaves a filter with the null condition on [deletedAt],
    unless the caller's filter carries an operator or a date there. *)
Lemma preFind_default q :
  deletedAtTruthy (f_deletedAt q) = false -> preFind q = set_f_deletedAt IsNull q.
Proof. unfold preFind. now intros ->. Qed.

Lemma preFind_explicit q : deletedAtTruthy (f_deletedAt q) = true -> preFind q = q.
Proof. unfold preFind. now intros ->. Qed.

Lemma matches_default q id t :
  deletedAtTruthy (f_deletedAt q) = false ->
  matches (preFind q) id t = true <-> matchesRest q id t = true /\ deletedAt t = None.
Proof.
  intros Hq. rewrite preFind_default by assumption. unfold matches. simpl.
  rewrite andb_true_iff, bool_decide_eq_true. reflexivity.
Qed.

(** [findOne] on a filter that names the [_id]. *)
Lemma findOne_by_id q c id :
  f_id q = Some id -> findOne q c = find q c !! id.
Proof.
  intros Hid. unfold findOne.
  assert (forall k t, find q c !! k = Some t -> k = id) as Hkey.
  { intros k t [_ Hm]%find_lookup. unfold matches, matchesRest in Hm.
    assert (f_id (preFind q) = Some id) as Hfid
      by (unfold preFind; destruct (negb _); assumption).
    rewrite Hfid in Hm. simpl in Hm. rewrite !andb_true_iff in Hm.
    destruct Hm as [[[[Hk _] _] _] _]. now apply bool_decide_eq_true in Hk. }
  destruct (find q c !! id) as [t|] eqn:Hlook.
  - assert (find q c = {[ id := t ]}) as ->.
    { apply map_eq. intros k. destruct (decide (k = id)) as [->|Hne].
      - now rewrite lookup_singleton_eq.
      - rewrite lookup_singleton_ne by congruence.
        destruct (find q c !! k) as [t'|] eqn:Hk; [|reflexivity].
        exfalso. apply Hne. eapply Hkey. eassumption. }
    now rewrite map_to_list_singleton.
  - assert (find q c = ∅) as ->.
    { apply map_empty. intros k. destruct (find q c !! k) as [t'|] eqn:Hk; [|reflexivity].
      apply Hkey in Hk as Heq. subst k. congruence. }
    now rewrite map_to_list_empty.
Qed.

Lemma findById_lookup id c :
  findById id c =
  match c !! id with
  | Some t => if bool_decide (deletedAt t = None) then Some t else None
  | None => None
  end.
Proof.
  unfold findById. rewrite (findOne_by_id _ _ id) by reflexivity.
  destruct (c !! id) as [t|] eqn:Hc.
  - case_bool_decide as Hdel.
    + apply find_lookup. split; [assumption|]. unfold matches, matchesRest. simpl.
      rewrite (bool_decide_eq_true_2 (id = id)) by reflexivity.
      now rewrite (bool_decide_eq_true_2 (deletedAt t = None)) by assumption.
    + apply find_lookup_None. right. exists t. split; [assumption|].
      unfold matches, matchesRest. simpl.
      rewrite (bool_decide_eq_false_2 (deletedAt t = None)) by assumption.
      apply andb_false_r.
  - apply find_lookup_None. now left.
Qed.

(** The rules of the schema read neither [isActive] nor [deletedAt] nor
    [updatedAt]. *)
Lemma validate_assigned (thisYear : Z) t (active : bool) (deleted : option Z) (stamp : Z) :
  validate thisYear (set_isActive active t) = validate thisYear t /\
  validate thisYear (set_deletedAt deleted t) = validate thisYear t /\
  validate thisYear (set_updatedAt stamp t) = validate thisYear t.
Proof. repeat split. Qed.

Lemma team_save_unfold (thisYear stamp : Z) i :
  save thisYear stamp i =
  if validate thisYear (this i)
  then (Return tt,
        {| _id := _id i; this := set_updatedAt stamp (this i);
           teams := <[_id i := set_updatedAt stamp (this i)]> (teams i) |})
  else (Rejected ValidationError, i).
Proof. unfold save, bind, get. cbn beta iota. now destruct (validate thisYear (this i)). Qed.

Lemma delete_soft_unfold (thisYear now stamp : Z) i :
  let assigned := set_isActive false (set_deletedAt (Some now) (this i)) in
  delete thisYear noOptions now stamp i =
  if validate thisYear (this i)
  then (Return tt,
        {| _id := _id i; this := set_updatedAt stamp assigned;
           teams := <[_id i := set_updatedAt stamp assigned]> (teams i) |})
  else (Rejected ValidationError,
        {| _id := _id i; this := assigned; teams := teams i |}).
Proof.
  intros assigned. unfold delete, bind, modify. simpl. rewrite team_save_unfold. simpl.
  change (validate thisYear (set_isActive false (set_deletedAt (Some now) (this i))))
    with (validate thisYear (this i)).
  now destruct (validate thisYear (this i)).
Qed.

Lemma delete_hard_unfold (thisYear now stamp : Z) i :
  delete thisYear {| hard := Some true |} now stamp i
  = (Return tt, set_teams (base.delete (_id i)) i).
Proof. reflexivity. Qed.

(** The soft delete is fulfilled exactly when the document passes
    validation. *)
Lemma delete_soft_fulfilled (thisYear now stamp : Z) i :
  Js.result (delete thisYear noOptions now stamp) i = Return tt
  <-> validate thisYear (this i) = true.
Proof.
  unfold Js.result. rewrite delete_soft_unfold.
  destruct (validate thisYear (this i)); simpl; split; congruence.
Qed.

(** C8.  A soft delete sets [deletedAt] (to the time of the call) and
    [isActive = false] on the document.  When its save is fulfilled, as it
    is for every document the schema accepts, the document is stored so,
    and the record is then absent from [find({})] and from [findById(id)]
    and present in [findDeleted()]; before the delete a stored record
    without [deletedAt] was returned by [find({})] and [findById(id)].
    After a hard delete the record is absent from [find({})], from
    [findById(id)] and from [findDeleted()].  A find whose filter does not
    constrain [deletedAt] by an operator or a date returns exactly the
    stored records that match the rest of the filter and have no
    [deletedAt]: [find({})] exactly the records without [deletedAt], and
    [findById(id)] the record stored under [id] if it has no [deletedAt]
    and nothing otherwise.  A find whose filter does so constrain it
    returns exactly the records that match the filter as written. *)
Theorem soft_delete_visibility (thisYear now stamp : Z) i :
  let soft := after (delete thisYear noOptions now stamp) i in
  let gone := after (delete thisYear {| hard := Some true |} now stamp) i in
  (deletedAt (this soft) = Some now /\ isActive (this soft) = false) /\
  (validate thisYear (this i) = true ->
     Js.result (delete thisYear noOptions now stamp) i = Return tt) /\
  (Js.result (delete thisYear noOptions now stamp) i = Return tt ->
     teams soft !! _id i = Some (this soft) /\
     find noFilter (teams soft) !! _id i = None /\
     findById (_id i) (teams soft) = None /\
     findDeleted (teams soft) !! _id i = Some (this soft)) /\
  (inStep i -> deletedAt (this i) = None ->
     find noFilter (teams i) !! _id i = Some (this i) /\
     findById (_id i) (teams i) = Some (this i) /\
     findDeleted (teams i) !! _id i = None) /\
  (Js.result (delete thisYear {| hard := Some true |} now stamp) i = Return tt /\
   find noFilter (teams gone) !! _id i = None /\
   findById (_id i) (teams gone) = None /\
   findDeleted (teams gone) !! _id i = None) /\
  (forall q c id t, deletedAtTruthy (f_deletedAt q) = false ->
     find q c !! id = Some t <->
     c !! id = Some t /\ matchesRest q id t = true /\ deletedAt t = None) /\
  (forall c, find noFilter c = filter (fun kv => deletedAt kv.2 = None) c) /\
  (forall c id t, findById id c = Some t <-> c !! id = Some t /\ deletedAt t = None) /\
  (forall c id, findById id c = None <->
     c !! id = None \/ exists t, c !! id = Some t /\ deletedAt t <> None) /\
  (forall q c id t, deletedAtTruthy (f_deletedAt q) = true ->
     find q c !! id = Some t <-> c !! id = Some t /\ matches q id t = true).
Proof.
  intros soft gone. subst soft gone. unfold Js.result, after.
  rewrite delete_soft_unfold, delete_hard_unfold.
  split; [|split; [|split; [|split; [|split; [|split; [|split; [|split; [|split]]]]]]]].
  - destruct (validate thisYear (this i)); now split.
  - now intros ->.
  - destruct (validate thisYear (this i)); [intros _ | discriminate]. simpl.
    split; [|split; [|split]].
    + apply lookup_insert_eq.
    + apply find_lookup_None. right. eexists. split; [apply lookup_insert_eq|].
      reflexivity.
    + rewrite findById_lookup, lookup_insert_eq. reflexivity.
    + apply find_lookup. split; [apply lookup_insert_eq | reflexivity].
  - unfold inStep. intros Hstored Hlive. split; [|split].
    + apply find_lookup. split; [assumption|]. unfold matches, matchesRest. simpl.
      now rewrite bool_decide_eq_true_2.
    + rewrite findById_lookup, Hstored. now rewrite bool_decide_eq_true_2.
    + apply find_lookup_None. right. exists (this i). split; [assumption|].
      unfold matches, matchesRest. simpl. rewrite bool_decide_eq_false_2; [reflexivity|].
      intros Hne. now apply Hne.
  - simpl. repeat split.
    + apply find_lookup_None. left. apply lookup_delete_eq.
    + rewrite findById_lookup, lookup_delete_eq. reflexivity.
    + apply find_lookup_None. left. apply lookup_delete_eq.
  - intros q c id t Hq. rewrite find_lookup, matches_default by assumption. reflexivity.
  - intros c. unfold find. apply map_filter_ext. intros id t _. simpl.
    apply bool_decide_eq_true.
  - intros c id t. rewrite findById_lookup. destruct (c !! id) as [t0|].
    + case_bool_decide as Hdel; split.
      * intros [= ->]. now split.
      * intros [[= ->] _]. reflexivity.
      * discriminate.
      * intros [[= ->] Hlive]. contradiction.
    + split; [discriminate | now intros [? _]].
  - intros c id. rewrite findById_lookup. destruct (c !! id) as [t0|].
    + case_bool_decide as Hdel; split.
      * discriminate.
      * intros [?|(t & [= <-] & Hne)]; [discriminate | contradiction].
      * intros _. right. now exists t0.
      * reflexivity.
    + split; [now left | reflexivity].
  - intros q c id t Hq. rewrite find_lookup, preFind_explicit by assumption. reflexivity.
Qed.

Example arsenal_soft_deleted :
  let i := Samples.arsenalLoaded in
  let soft := after (delete 2025 noOptions 1700000000000 1700000000004) i in
  let deleted :=
    set_updatedAt 1700000000004
      (set_isActive false (set_deletedAt (Some 1700000000000%Z) Samples.arsenal)) in
  validate 2025 Samples.arsenal = true /\
  Js.result (delete 2025 noOptions 1700000000000 1700000000004) i = Return tt /\
  findById (Samples.oid "d01") (teams i) = Some Samples.arsenal /\
  findById (Samples.oid "d01") (teams soft) = None /\
  findDeleted (teams soft) !! Samples.oid "d01" = Some deleted.
Proof. repeat split. Qed.

(** A team said to be founded in 1700 does not pass validation: its soft
    delete is rejected and the stored record stays as it was, returned by
    [findById]. *)
Example invalid_team_not_deleted :
  let invalid :=
    {| sportmonksId := 19; name := "Arsenal"; shortCode := Some "ARS"; logoUrl := None;
       foundedYear := Some 1700%Z; country := None; city := None; venue := None;
       leagueId := None; isActive := true; deletedAt := None;
       createdAt := 1690000000000; updatedAt := 1690000000000 |} in
  let i := {| _id := Samples.oid "d01"; this := invalid;
              teams := {[ Samples.oid "d01" := invalid ]} |} in
  let soft := after (delete 2025 noOptions 1700000000000 1700000000004) i in
  Js.result (delete 2025 noOptions 1700000000000 1700000000004) i
    = Rejected ValidationError /\
  teams soft = teams i /\
  findById (Samples.oid "d01") (teams soft) = Some invalid.
Proof. repeat split. Qed.

End TeamFacts.

(** * Further properties *)

(** ** PlayerStats: the derived statistics *)

Section PlayerStatsMore.

Import PlayerStats.
Local Open Scope Q_scope.

Lemma updateFantasyPoints_unfold (this : PlayerStats) :
  let r := Qmax 0 (points (performance this)) in
  fantasy (after updateFantasyPoints this) =
  set_pointsPerMinute
    (if (minutesPlayed (performance this) >? 0)%Z
     then r / inject_Z (minutesPlayed (performance this)) else 0)
    (set_averagePoints
       (if (appearances (performance this) >? 0)%Z
        then r / inject_Z (appearances (performance this)) else 0)
       (set_fantasyPoints r (fantasy this))).
Proof. reflexivity. Qed.

Lemma Qdiv_nonneg (a : Q) (z : Z) : 0 <= a -> (0 < z)%Z -> 0 <= a / inject_Z z.
Proof.
  intros Ha Hz. apply Qle_shift_div_l.
  - change 0 with (inject_Z 0). now rewrite <- Zlt_Qlt.
  - now rewrite Qmult_0_l.
Qed.

(** X1.  Whatever the snapshot and whatever the document held before,
    [updateFantasyPoints] leaves [fantasyPoints], [averagePoints] and
    [pointsPerMinute] non-negative, as the [min: 0] rules of
    [FantasyStatsSchema] require. *)
Theorem updateFantasyPoints_derived_valid (this : PlayerStats) :
  derivedValid (fantasy (after updateFantasyPoints this)).
Proof.
  rewrite updateFantasyPoints_unfold. unfold derivedValid. simpl.
  assert (0 <= Qmax 0 (points (performance this))) as Hr by apply Q.le_max_l.
  repeat split; [assumption | |].
  - destruct (Z.gtb_spec (appearances (performance this)) 0);
      [now apply Qdiv_nonneg | apply Qle_refl].
  - destruct (Z.gtb_spec (minutesPlayed (performance this)) 0);
      [now apply Qdiv_nonneg | apply Qle_refl].
Qed.

(** X2.  On a document whose [appearances] are not negative, the [form]
    virtual read after [updateFantasyPoints] is the [averagePoints] that
    call stored. *)
Theorem form_is_averagePoints (this : PlayerStats) :
  (0 <= appearances (performance this))%Z ->
  form (after updateFantasyPoints this)
  = averagePoints (fantasy (after updateFantasyPoints this)).
Proof.
  intros Happ. unfold form. rewrite updateFantasyPoints_unfold.
  change (performance (after updateFantasyPoints this)) with (performance this).
  simpl.
  destruct (Z.eqb_spec (appearances (performance this)) 0) as [Hz|Hnz].
  - rewrite Hz. reflexivity.
  - destruct (Z.gtb_spec (appearances (performance this)) 0); [reflexivity | lia].
Qed.

Lemma form_is_averagePoints_witness :
  (0 <= appearances Samples.striker)%Z /\
  form (after updateFantasyPoints (Samples.statsOf Samples.striker))
  = averagePoints (fantasy (after updateFantasyPoints (Samples.statsOf Samples.striker))).
Proof.
  assert (0 <= appearances Samples.striker)%Z as Happ by (simpl; lia).
  split; [exact Happ | exact (form_is_averagePoints (Samples.statsOf Samples.striker) Happ)].
Defined.

Lemma minutesBonus_mono (m n : Z) : (m <= n)%Z -> (minutesBonus m <= minutesBonus n)%Z.
Proof.
  intros Hmn. unfold minutesBonus.
  destruct (Z.leb_spec 60 m), (Z.leb_spec 60 n), (Z.leb_spec 1 m), (Z.leb_spec 1 n); lia.
Qed.

Lemma inject_Z_half_le (a b c d : Z) :
  (a <= b)%Z -> (c <= d)%Z -> inject_Z a + (c # 2) <= inject_Z b + (d # 2).
Proof.
  intros Hab Hcd. apply Qplus_le_compat.
  - now rewrite <- Zle_Qle.
  - unfold Qle. simpl. lia.
Qed.

(** X3.  The score is monotone: a snapshot with no fewer appearances,
    goals, assists, clean sheets, saves, penalty saves and minutes, and no
    more missed penalties, cards and own goals, never gets fewer
    [fantasyPoints]. *)
Theorem fantasyPoints_monotone (this other : PlayerStats) :
  atLeastAsGood (performance this) (performance other) ->
  fantasyPoints (fantasy (after updateFantasyPoints other))
  <= fantasyPoints (fantasy (after updateFantasyPoints this)).
Proof.
  intros H. unfold atLeastAsGood in H. decompose [and] H. clear H.
  rewrite !updateFantasyPoints_fantasyPoints.
  apply Q.max_le_compat_l. rewrite !points_closed_form.
  apply inject_Z_half_le; [|assumption].
  pose proof (minutesBonus_mono (minutesPlayed (performance other))
                (minutesPlayed (performance this))). lia.
Qed.

Lemma fantasyPoints_monotone_witness :
  atLeastAsGood Samples.striker Samples.substitute /\
  fantasyPoints (fantasy (after updateFantasyPoints (Samples.statsOf Samples.substitute)))
  <= fantasyPoints (fantasy (after updateFantasyPoints (Samples.statsOf Samples.striker))).
Proof.
  assert (atLeastAsGood Samples.striker Samples.substitute) as Hbetter
    by (unfold atLeastAsGood; simpl; lia).
  split; [exact Hbetter|].
  exact (fantasyPoints_monotone (Samples.statsOf Samples.striker)
           (Samples.statsOf Samples.substitute) Hbetter).
Defined.

End PlayerStatsMore.

(** ** FantasyTeam: releases, round trips and the books *)

Section FantasyTeamMore.

Import Binary64 FantasyTeam.
Local Open Scope nat_scope.

Implicit Types (t : FantasyTeam) (p s : PlayerSelection) (id : string) (price : float).

(** X4.  [removePlayer] throws the not-found error, leaving the team as it
    was, exactly when the player is not selected.  Otherwise it returns,
    having removed the first selection of that player and no other, added
    its purchase price to [remainingBudget] and taken it off [totalValue];
    the budget is untouched. *)
Theorem removePlayer_refunds id t :
  let r := result (removePlayer id) t in
  let t' := after (removePlayer id) t in
  (id ∉ playerIds t -> r = Thrown PlayerNotFoundError /\ t' = t) /\
  (id ∈ playerIds t ->
     r = Return tt /\
     exists before player rest,
       players t = before ++ player :: rest /\
       playerId player = id /\ (id ∉ map playerId before) /\
       players t' = before ++ rest /\
       remainingBudget t' = (remainingBudget t + purchasePrice player)%float /\
       totalValue t' = (totalValue t - purchasePrice player)%float /\
       budget t' = budget t).
Proof.
  intros r t'. subst r t'. unfold result, after. rewrite removePlayer_unfold.
  unfold playerIds. split.
  - intros Hnot. now rewrite (proj2 (findIndex_playerId_None id (players t)) Hnot).
  - intros Hin. destruct (findIndex _ (players t)) as [i|] eqn:Hfind.
    + destruct (findIndex_Some _ _ _ Hfind) as (player & Hi & Hname & Hbefore).
      rewrite Hi. simpl. split; [reflexivity|].
      exists (take i (players t)), player, (drop (S i) (players t)).
      apply String.eqb_eq in Hname.
      repeat split; try assumption.
      * symmetry. now apply take_drop_middle.
      * intros (q & Hq & Hmem)%list_elem_of_fmap.
        apply list_elem_of_lookup in Hmem as [j Hj].
        apply lookup_take_Some in Hj as [Hj Hlt].
        specialize (Hbefore j q Hlt Hj). simpl in Hbefore.
        rewrite <- Hq, String.eqb_refl in Hbefore. discriminate.
      * unfold splice1. apply delete_take_drop.
    + apply findIndex_playerId_None in Hfind. contradiction.
Qed.





(** *** Captaincy, continued *)

Lemma flagged_once (flag : PlayerSelection -> bool)
    (g : PlayerSelection -> PlayerSelection) id (l : list PlayerSelection) :
  (forall p, flag (g p) = named id p) ->
  NoDup (map playerId l) -> id ∈ map playerId l ->
  exists p0, List.filter flag (map g l) = [g p0] /\ playerId p0 = id.
Proof.
  intros Hflag Hnd Hin. rewrite filter_map_swap.
  rewrite (List.filter_ext _ (named id)) by exact Hflag.
  destruct (named_once id l Hnd Hin) as (p0 & Hp0 & Hid).
  exists p0. now rewrite Hp0.
Qed.

Lemma flagged_none (flag : PlayerSelection -> bool) (l : list PlayerSelection) :
  (forall p, p ∈ l -> flag p = false) -> List.filter flag l = [].
Proof.
  induction l as [|a l IH]; intros Hl; simpl; [reflexivity|].
  rewrite (Hl a) by left. apply IH. intros p Hp. apply Hl. now right.
Qed.

(** X7.  On a squad where no two selections share a player and the named
    player is selected, [setViceCaptain] returns and afterwards exactly one
    selection is vice-captain, the named player's; that selection is not
    captain, every other selection has [isViceCaptain = false], and the
    selected players are who they were. *)
Theorem setViceCaptain_exclusive id t :
  NoDup (playerIds t) -> id ∈ playerIds t ->
  let t' := after (setViceCaptain id) t in
  result (setViceCaptain id) t = Return tt /\
  viceCaptainIs id t' /\
  (forall p, p ∈ players t' -> isViceCaptain p = true <-> playerId p = id) /\
  playerIds t' = playerIds t.
Proof.
  intros Hnd Hin t'. subst t'.
  unfold result, after, viceCaptainIs, viceCaptains, playerIds in *.
  rewrite setViceCaptain_unfold. simpl.
  split; [reflexivity|]. split; [|split].
  - destruct (flagged_once isViceCaptain (setViceCaptain_each id) id (players t))
      as (p0 & Hp0 & Hid); try assumption.
    { intros p. apply setViceCaptain_each_isViceCaptain. }
    exists (setViceCaptain_each id p0). rewrite Hp0.
    rewrite setViceCaptain_each_playerId, setViceCaptain_each_isCaptain.
    unfold named. rewrite Hid, String.eqb_refl. now repeat split.
  - intros p (q & -> & Hq)%list_elem_of_fmap.
    rewrite setViceCaptain_each_isViceCaptain, setViceCaptain_each_playerId.
    unfold named. apply String.eqb_eq.
  - apply map_playerId_each, setViceCaptain_each_playerId.
Qed.

Lemma setViceCaptain_exclusive_witness :
  NoDup (playerIds Samples.pairSquad) /\ Samples.oid "001" ∈ playerIds Samples.pairSquad /\
  viceCaptainIs (Samples.oid "001") (after (setViceCaptain (Samples.oid "001")) Samples.pairSquad).
Proof.
  assert (NoDup (playerIds Samples.pairSquad)) as Hnd
    by (refine (bool_decide_unpack _ _); vm_compute; exact I).
  assert (Samples.oid "001" ∈ playerIds Samples.pairSquad) as Hin
    by (refine (bool_decide_unpack _ _); vm_compute; exact I).
  destruct (setViceCaptain_exclusive (Samples.oid "001") Samples.pairSquad Hnd Hin)
    as (_ & Hvice & _).
  repeat split; assumption.
Defined.

(** X8.  The two roles exclude each other across calls: making the
    captain vice-captain leaves the squad without a captain, and making
    the vice-captain captain leaves it without a vice-captain.  On a squad
    where no two selections share a player and the named player is
    selected, [setCaptain] followed by [setViceCaptain] for that player
    leaves nobody captain and that player the one vice-captain, and the
    other order leaves nobody vice-captain and that player the one
    captain. *)
Theorem captaincy_handover id t :
  NoDup (playerIds t) -> id ∈ playerIds t ->
  let demoted := after (setViceCaptain id) (after (setCaptain id) t) in
  let promoted := after (setCaptain id) (after (setViceCaptain id) t) in
  captains demoted = [] /\ viceCaptainIs id demoted /\
  viceCaptains promoted = [] /\ captainIs id promoted.
Proof.
  intros Hnd Hin demoted promoted. subst demoted promoted.
  unfold after, captainIs, viceCaptainIs, captains, viceCaptains, playerIds in *.
  rewrite !setCaptain_unfold, !setViceCaptain_unfold. simpl.
  rewrite !map_map. repeat split.
  - apply flagged_none. intros p (q & -> & _)%list_elem_of_fmap.
    rewrite setViceCaptain_each_isCaptain. unfold named.
    rewrite setCaptain_each_playerId, setCaptain_each_isCaptain. unfold named.
    now destruct (String.eqb _ _).
  - destruct (flagged_once isViceCaptain
                (fun p => setViceCaptain_each id (setCaptain_each id p)) id (players t))
      as (p0 & Hp0 & Hid); try assumption.
    { intros p. rewrite setViceCaptain_each_isViceCaptain. unfold named.
      now rewrite setCaptain_each_playerId. }
    eexists. split; [exact Hp0|].
    rewrite setViceCaptain_each_playerId, setCaptain_each_playerId,
      setViceCaptain_each_isCaptain. unfold named.
    rewrite setCaptain_each_playerId, Hid, String.eqb_refl. now split.
  - apply flagged_none. intros p (q & -> & _)%list_elem_of_fmap.
    rewrite setCaptain_each_isViceCaptain. unfold named.
    rewrite setViceCaptain_each_playerId, setViceCaptain_each_isViceCaptain. unfold named.
    now destruct (String.eqb _ _).
  - destruct (flagged_once isCaptain
                (fun p => setCaptain_each id (setViceCaptain_each id p)) id (players t))
      as (p0 & Hp0 & Hid); try assumption.
    { intros p. rewrite setCaptain_each_isCaptain. unfold named.
      now rewrite setViceCaptain_each_playerId. }
    eexists. split; [exact Hp0|].
    rewrite setCaptain_each_playerId, setViceCaptain_each_playerId,
      setCaptain_each_isViceCaptain. unfold named.
    rewrite setViceCaptain_each_playerId, Hid, String.eqb_refl. now split.
Qed.

Lemma captaincy_handover_witness :
  NoDup (playerIds Samples.pairSquad) /\ Samples.oid "002" ∈ playerIds Samples.pairSquad /\
  captains (after (setViceCaptain (Samples.oid "002"))
              (after (setCaptain (Samples.oid "002")) Samples.pairSquad)) = [] /\
  captainIs (Samples.oid "002")
    (after (setCaptain (Samples.oid "002"))
       (after (setViceCaptain (Samples.oid "002")) Samples.pairSquad)).
Proof.
  assert (NoDup (playerIds Samples.pairSquad)) as Hnd
    by (refine (bool_decide_unpack _ _); vm_compute; exact I).
  assert (Samples.oid "002" ∈ playerIds Samples.pairSquad) as Hin
    by (refine (bool_decide_unpack _ _); vm_compute; exact I).
  destruct (captaincy_handover (Samples.oid "002") Samples.pairSquad Hnd Hin)
    as (Hnone & _ & _ & Hcap).
  repeat split; assumption.
Defined.

Lemma find_map {A B} (f : B -> bool) (g : A -> B) (l : list A) :
  find f (map g l) = g <$> find (fun x => f (g x)) l.
Proof.
  unfold find. induction l as [|a l IH]; simpl; [reflexivity|].
  destruct (f (g a)); [reflexivity | exact IH].
Qed.

Lemma find_named id (l : list PlayerSelection) :
  match find (named id) l with
  | Some p => playerId p = id /\ id ∈ map playerId l
  | None => id ∉ map playerId l
  end.
Proof.
  unfold find. induction l as [|a l IH]; simpl.
  - intros H. inversion H.
  - unfold named at 1. destruct (String.eqb_spec (playerId a) id) as [Heq|Hne].
    + split; [assumption | rewrite Heq; left].
    + destruct (List.find (named id) l) as [p|].
      * destruct IH as [Hp Hin]. split; [assumption | now right].
      * intros Hin. inversion Hin; subst; [congruence | contradiction].
Qed.

(** X9.  What the [captain] virtual reads after [setCaptain]: nothing
    when the named player is not selected (whoever was captain before),
    and otherwise a selection of the named player that is not
    vice-captain. *)
Theorem captain_after_setCaptain id t :
  let t' := after (setCaptain id) t in
  (id ∉ playerIds t -> captain t' = None) /\
  (id ∈ playerIds t ->
     exists s, captain t' = Some s /\ playerId s = id /\
               isCaptain s = true /\ isViceCaptain s = false).
Proof.
  intros t'. subst t'. unfold after, captain, playerIds.
  rewrite setCaptain_unfold. simpl. rewrite find_map.
  assert (find (fun x => isCaptain (setCaptain_each id x)) (players t)
          = find (named id) (players t)) as ->.
  { unfold find. induction (players t) as [|a l IH]; simpl; [reflexivity|].
    rewrite setCaptain_each_isCaptain, IH. reflexivity. }
  pose proof (find_named id (players t)) as Hfind.
  destruct (find (named id) (players t)) as [p|]; simpl.
  - destruct Hfind as [Hp Hin]. split; [contradiction|]. intros _.
    exists (setCaptain_each id p).
    rewrite setCaptain_each_playerId, setCaptain_each_isCaptain,
      setCaptain_each_isViceCaptain.
    unfold named. rewrite Hp, String.eqb_refl. now repeat split.
  - split; [reflexivity | contradiction].
Qed.

(** X10.  The starting eleven and the bench make up the squad:
    [startingLineupCount + benchCount = squadCount], on every team. *)
Theorem lineup_and_bench t : startingLineupCount t + benchCount t = squadCount t.
Proof.
  unfold startingLineupCount, benchCount, squadCount.
  induction (players t) as [|a l IH]; simpl; [reflexivity|].
  destruct (isStarting a); simpl; lia.
Qed.

(** X29.  Starting from a team with no selections, as long as every
    signing names its player as [toString()] prints an ObjectId (24
    hexadecimal digits, lower case), after every call of any sequence of
    [addPlayer], [removePlayer], [setCaptain] and [setViceCaptain] calls
    no two selections share a player, at most one selection is captain,
    at most one is vice-captain and none is both.  A selection that
    [addPlayer] appends is for the named player and is neither captain nor
    vice-captain. *)
Theorem captaincy_invariant_lower_case_ids (cs : list SquadCall) t :
  players t = [] -> forallb canonicalCall cs = true ->
  Forall captaincyInvariant (trace cs t) /\
  captaincyInvariant (run cs t) /\
  NoDup (playerIds (run cs t)) /\
  (forall id price (st : bool) (now : Z),
     Types.canonical id = true ->
     result (addPlayer id price st now) (run cs t) = Return tt ->
     exists s, players (after (addPlayer id price st now) (run cs t))
                 = players (run cs t) ++ [s] /\
               playerId s = id /\ isCaptain s = false /\ isViceCaptain s = false).
Proof.
  intros Hnil Hcs. destruct (trace_good cs t Hcs (empty_good t Hnil)) as [Htr [Hnd Hinv]].
  split; [|split; [|split]].
  - eapply Forall_impl; [exact Htr|]. now intros ? [_ ?].
  - exact Hinv.
  - exact Hnd.
  - intros id price st now [Hvalid Hsame%String.eqb_eq]%andb_true_iff.
    unfold result, after. rewrite addPlayer_unfold, Hvalid, Hsame.
    destruct (15 <=? _); [discriminate|].
    destruct (remainingBudget _ <? price)%float; [discriminate|].
    destruct (bool_decide _); [discriminate|]. intros _. simpl.
    eexists. repeat split.
Qed.

Lemma captaincy_invariant_lower_case_ids_witness :
  players Samples.dreamTeam = [] /\
  forallb canonicalCall Samples.aSeasonOfCalls = true /\
  Forall captaincyInvariant (trace Samples.aSeasonOfCalls Samples.dreamTeam) /\
  captaincyInvariant (run Samples.aSeasonOfCalls Samples.dreamTeam).
Proof.
  assert (forallb canonicalCall Samples.aSeasonOfCalls = true) as Hcs
    by (vm_compute; reflexivity).
  destruct (captaincy_invariant_lower_case_ids Samples.aSeasonOfCalls Samples.dreamTeam
              eq_refl Hcs) as (Htr & Hrun & _).
  split; [reflexivity | split; [exact Hcs | split; [exact Htr | exact Hrun]]].
Defined.

End FantasyTeamMore.
(** ** Season: the lifecycle over sequences of calls *)

Section SeasonMore.

Import Season.
Local Open Scope Z_scope.

Implicit Types (s : Season) (now : Z) (c : SeasonCall).

Lemma after_call c s :
  after (call c) s =
  match c with
  | Save now => after (save now) s
  | AdvanceGameweek now =>
      if currentGameweek s <? totalGameweeks s
      then after (save now) (set_currentGameweek (currentGameweek s + 1) s) else s
  | ActivateSeason now =>
      if status_eqb (status s) UPCOMING
      then after (save now) (set_isFantasyActive true (set_status ACTIVE s)) else s
  | CompleteSeason now =>
      if status_eqb (status s) ACTIVE
      then after (save now) (set_isFantasyActive false (set_status COMPLETED s)) else s
  | SetTransferDeadline deadline now =>
      if (deadline <? startDate s) || (deadline >? endDate s)
      then s else after (save now) (set_transferDeadline (Some deadline) s)
  end.
Proof.
  unfold after. destruct c; simpl;
    unfold advanceGameweek, activateSeason, completeSeason, setTransferDeadline,
      bind, get, modify; cbn beta iota.
  - reflexivity.
  - now destruct (_ <? _).
  - now destruct (status_eqb _ _).
  - now destruct (status_eqb _ _).
  - now destruct (_ || _).
Qed.

(** What the hook leaves alone, and where it can take the status. *)
Lemma preSave_keeps now s :
  startDate (preSave now s) = startDate s /\ endDate (preSave now s) = endDate s /\
  currentGameweek (preSave now s) = currentGameweek s /\
  totalGameweeks (preSave now s) = totalGameweeks s /\
  transferDeadline (preSave now s) = transferDeadline s /\
  leadsTo (status s) (status (preSave now s)) = true.
Proof.
  unfold preSave.
  destruct (status s) eqn:Hst; simpl;
    repeat match goal with |- context [if ?b then _ else _] => destruct b end;
    simpl; rewrite ?Hst; repeat split.
Qed.

Lemma leadsTo_refl (a : SeasonStatus) : leadsTo a a = true.
Proof. now destruct a. Qed.

Lemma leadsTo_trans (a b c : SeasonStatus) :
  leadsTo a b = true -> leadsTo b c = true -> leadsTo a c = true.
Proof. destruct a, b, c; simpl; congruence. Qed.

(** The same of a save, whether the hook ran or the save was rejected. *)
Lemma save_keeps now s :
  startDate (after (save now) s) = startDate s /\
  endDate (after (save now) s) = endDate s /\
  currentGameweek (after (save now) s) = currentGameweek s /\
  totalGameweeks (after (save now) s) = totalGameweeks s /\
  transferDeadline (after (save now) s) = transferDeadline s /\
  leadsTo (status s) (status (after (save now) s)) = true.
Proof.
  rewrite after_save. destruct (documentValid s); [apply preSave_keeps|].
  repeat split. apply leadsTo_refl.
Qed.

Lemma call_leadsTo c s : leadsTo (status s) (status (after (call c) s)) = true.
Proof.
  rewrite after_call. destruct c as [now|now|now|now|deadline now].
  - apply save_keeps.
  - destruct (_ <? _); [|apply leadsTo_refl].
    eapply leadsTo_trans; [|apply save_keeps]. apply leadsTo_refl.
  - destruct (status_eqb _ _) eqn:Hst; [|apply leadsTo_refl].
    apply status_eqb_eq in Hst.
    eapply leadsTo_trans; [|apply save_keeps]. simpl. now rewrite Hst.
  - destruct (status_eqb _ _) eqn:Hst; [|apply leadsTo_refl].
    apply status_eqb_eq in Hst.
    eapply leadsTo_trans; [|apply save_keeps]. simpl. now rewrite Hst.
  - destruct (_ || _); [apply leadsTo_refl|].
    eapply leadsTo_trans; [|apply save_keeps]. apply leadsTo_refl.
Qed.

(** X11.  The status of a season only moves forward: after any sequence
    of saves and method calls, the status is one the lifecycle order
    Upcoming, Active, Completed reaches from the status before.  So a
    Completed season stays Completed, a Cancelled season stays Cancelled,
    no call cancels a season, an Active season never becomes Upcoming
    again. *)
Theorem status_moves_forward (cs : list SeasonCall) s :
  leadsTo (status s) (status (run cs s)) = true /\
  (status s = COMPLETED -> status (run cs s) = COMPLETED) /\
  (status s = CANCELLED -> status (run cs s) = CANCELLED) /\
  (status (run cs s) = CANCELLED -> status s = CANCELLED) /\
  (status s = ACTIVE -> status (run cs s) <> UPCOMING).
Proof.
  assert (leadsTo (status s) (status (run cs s)) = true) as Hlead.
  { revert s. induction cs as [|c cs IH]; intros s; [apply leadsTo_refl|].
    change (run (c :: cs) s) with (run cs (after (call c) s)).
    eapply leadsTo_trans; [apply call_leadsTo | apply IH]. }
  split; [assumption|].
  destruct (status s), (status (run cs s)); simpl in Hlead;
    repeat split; congruence.
Qed.

Lemma schemaValid_preSave now s : schemaValid (preSave now s) = schemaValid s.
Proof.
  unfold schemaValid, transferDeadlineValidator.
  destruct (preSave_keeps now s) as (-> & -> & -> & -> & -> & _). reflexivity.
Qed.

Lemma schemaValid_save now s : schemaValid (after (save now) s) = schemaValid s.
Proof.
  unfold schemaValid, transferDeadlineValidator.
  destruct (save_keeps now s) as (-> & -> & -> & -> & -> & _). reflexivity.
Qed.

Lemma call_schemaValid c s : schemaValid s = true -> schemaValid (after (call c) s) = true.
Proof.
  intros Hv. rewrite after_call. destruct c as [now|now|now|now|deadline now].
  - now rewrite schemaValid_save.
  - destruct (Z.ltb_spec (currentGameweek s) (totalGameweeks s)); [|assumption].
    rewrite schemaValid_save. revert Hv. unfold schemaValid. simpl.
    rewrite !andb_true_iff, !Z.leb_le. intros Hv. decompose [and] Hv.
    repeat split; try assumption; lia.
  - destruct (status_eqb _ _); [|assumption]. now rewrite schemaValid_save.
  - destruct (status_eqb _ _); [|assumption]. now rewrite schemaValid_save.
  - destruct (_ || _) eqn:Hout; [assumption|].
    rewrite schemaValid_save. revert Hv. unfold schemaValid. simpl.
    apply orb_false_iff in Hout as [Hlo Hhi].
    rewrite !andb_true_iff. intros Hv. decompose [and] Hv.
    repeat split; try assumption.
    + rewrite Z.geb_leb. apply Z.leb_le. apply Z.ltb_ge in Hlo. lia.
    + apply Z.leb_le. rewrite Z.gtb_ltb in Hhi. apply Z.ltb_ge in Hhi. lia.
Qed.

(** X12.  The methods keep a season acceptable to its schema: from a
    season with [startDate < endDate], [1 <= currentGameweek <=
    totalGameweeks <= 50] and a transfer deadline (if any) within the
    dates, any sequence of saves and method calls leaves a season with
    the same properties. *)
Theorem methods_keep_schema (cs : list SeasonCall) s :
  schemaValid s = true ->
  schemaValid (run cs s) = true /\
  1 <= currentGameweek (run cs s) <= totalGameweeks (run cs s).
Proof.
  intros Hv. assert (schemaValid (run cs s) = true) as Hrun.
  { revert s Hv. induction cs as [|c cs IH]; intros s Hv; [assumption|].
    change (run (c :: cs) s) with (run cs (after (call c) s)).
    apply IH. now apply call_schemaValid. }
  split; [assumption|]. revert Hrun. unfold schemaValid.
  rewrite !andb_true_iff, !Z.leb_le. intros Hr. decompose [and] Hr. lia.
Qed.

Lemma methods_keep_schema_witness :
  schemaValid Samples.staleSeason = true /\
  schemaValid
    (run [ SetTransferDeadline 1700000000000 1690000000000; ActivateSeason 1692000000000;
           AdvanceGameweek 1692600000000; Save 1720000000000; CompleteSeason 1720000000001 ]
         Samples.staleSeason) = true.
Proof.
  assert (schemaValid Samples.staleSeason = true) as Hv by (vm_compute; reflexivity).
  split; [exact Hv|]. exact (proj1 (methods_keep_schema _ Samples.staleSeason Hv)).
Defined.

(** X13.  [advanceGameweek] counts up to [totalGameweeks] and stops
    there: on a season whose current gameweek does not exceed the total,
    after [n] calls the current gameweek is the smaller of
    [currentGameweek + n] and [totalGameweeks]; and a call on a season
    already at (or past) the total throws and leaves the season as it
    was. *)
Theorem advanceGameweek_counts (nows : list Z) s :
  currentGameweek s <= totalGameweeks s ->
  currentGameweek (run (map AdvanceGameweek nows) s)
    = Z.min (currentGameweek s + Z.of_nat (length nows)) (totalGameweeks s) /\
  totalGameweeks (run (map AdvanceGameweek nows) s) = totalGameweeks s /\
  (forall now s0, totalGameweeks s0 <= currentGameweek s0 ->
     Js.result (advanceGameweek now) s0 = Thrown "Cannot advance beyond total gameweeks" /\
     after (advanceGameweek now) s0 = s0).
Proof.
  intros Hle. split; [|split].
  - revert s Hle. induction nows as [|now nows IH]; intros s Hle.
    + simpl. lia.
    + change (run (map AdvanceGameweek (now :: nows)) s)
        with (run (map AdvanceGameweek nows) (after (call (AdvanceGameweek now)) s)).
      rewrite after_call.
      destruct (Z.ltb_spec (currentGameweek s) (totalGameweeks s)) as [Hlt|Hge].
      * destruct (save_keeps now (set_currentGameweek (currentGameweek s + 1) s))
          as (_ & _ & Hcg & Htg & _). simpl in Hcg, Htg.
        rewrite IH by (rewrite Hcg, Htg; lia). rewrite Hcg, Htg.
        simpl length. lia.
      * rewrite IH by assumption. simpl length. lia.
  - revert s Hle. induction nows as [|now nows IH]; intros s Hle; [reflexivity|].
    change (run (map AdvanceGameweek (now :: nows)) s)
      with (run (map AdvanceGameweek nows) (after (call (AdvanceGameweek now)) s)).
    rewrite after_call.
    destruct (Z.ltb_spec (currentGameweek s) (totalGameweeks s)) as [Hlt|Hge].
    + destruct (save_keeps now (set_currentGameweek (currentGameweek s + 1) s))
        as (_ & _ & Hcg & Htg & _). simpl in Hcg, Htg.
      rewrite IH by (rewrite Hcg, Htg; lia). exact Htg.
    + now apply IH.
  - intros now s0 Hfull. unfold Js.result, after, advanceGameweek, bind, get.
    cbn beta iota.
    destruct (Z.ltb_spec (currentGameweek s0) (totalGameweeks s0)); [lia | now split].
Qed.

Lemma advanceGameweek_counts_witness :
  currentGameweek Samples.staleSeason <= totalGameweeks Samples.staleSeason /\
  currentGameweek
    (run (map AdvanceGameweek (repeat 1700000000000 40)) Samples.staleSeason) = 38.
Proof.
  assert (currentGameweek Samples.staleSeason <= totalGameweeks Samples.staleSeason)
    as Hle by (simpl; lia).
  split; [exact Hle|].
  exact (proj1 (advanceGameweek_counts (repeat 1700000000000 40) Samples.staleSeason Hle)).
Defined.

Lemma setTransferDeadline_unfold (deadline now : Z) s :
  setTransferDeadline deadline now s =
  if (deadline <? startDate s) || (deadline >? endDate s)
  then (Thrown "Transfer deadline must be within season dates", s)
  else save now (set_transferDeadline (Some deadline) s).
Proof.
  unfold setTransferDeadline, bind, get, modify. cbn beta iota. now destruct (_ || _).
Qed.

(** A save comes back to its caller. *)
Lemma save_returned now s : returned (Js.result (save now) s) = true.
Proof. unfold Js.result. rewrite save_unfold. now destruct (documentValid s). Qed.

(** X14.  [setTransferDeadline] accepts exactly the deadlines the schema's
    validator on [transferDeadline] accepts: it returns when
    [startDate <= deadline <= endDate], and then the deadline is stored;
    otherwise it throws and the season is as it was. *)
Theorem setTransferDeadline_agrees_with_validator (deadline now : Z) s :
  let r := Js.result (setTransferDeadline deadline now) s in
  let s' := after (setTransferDeadline deadline now) s in
  returned r = transferDeadlineValidator s (Some deadline) /\
  (returned r = true <-> startDate s <= deadline <= endDate s) /\
  (returned r = true ->
     transferDeadline s' = Some deadline /\
     transferDeadlineValidator s' (transferDeadline s') = true) /\
  (returned r = false ->
     r = Thrown "Transfer deadline must be within season dates" /\ s' = s).
Proof.
  intros r s'. subst r s'.
  unfold Js.result, after. rewrite setTransferDeadline_unfold.
  unfold transferDeadlineValidator. rewrite Z.geb_leb, Z.gtb_ltb.
  pose proof (save_returned now (set_transferDeadline (Some deadline) s)) as Hret.
  pose proof (save_keeps now (set_transferDeadline (Some deadline) s))
    as (Hsd & Hed & _ & _ & Hd & _).
  unfold Js.result, after in Hret, Hsd, Hed, Hd. simpl in Hsd, Hed, Hd.
  destruct (Z.ltb_spec deadline (startDate s)) as [Hlo|Hlo];
    destruct (Z.ltb_spec (endDate s) deadline) as [Hhi|Hhi]; simpl;
    destruct (Z.leb_spec (startDate s) deadline);
    destruct (Z.leb_spec deadline (endDate s)); try lia; simpl;
    rewrite ?Hret; repeat split; intros; try lia; try discriminate.
  - exact Hd.
  - rewrite Hd, Hsd, Hed. rewrite Z.geb_leb. apply andb_true_iff.
    split; now apply Z.leb_le.
Qed.

Lemma documentValid_preSave now s : documentValid (preSave now s) = documentValid s.
Proof.
  unfold documentValid. rewrite schemaValid_preSave.
  assert (name (preSave now s) = name s) as ->; [|reflexivity].
  unfold preSave.
  destruct (status_eqb (status s) UPCOMING && _ && _);
    [reflexivity | destruct (status_eqb (status s) ACTIVE && _); reflexivity].
Qed.

Lemma preSave_idempotent now s : preSave now (preSave now s) = preSave now s.
Proof.
  destruct (status s) eqn:Hst.
  - destruct (Z_le_dec (startDate s) now) as [Hlo|Hlo];
      [destruct (Z_le_dec now (endDate s)) as [Hhi|Hhi]|].
    + rewrite (preSave_upcoming now s) by auto.
      now apply preSave_active_running.
    + assert (preSave now s = s) as Hsame; [|now rewrite !Hsame].
      unfold preSave. rewrite Hst. simpl. rewrite Z.geb_leb.
      destruct (Z.leb_spec now (endDate s)); [lia|]. now rewrite andb_false_r.
    + assert (preSave now s = s) as Hsame; [|now rewrite !Hsame].
      unfold preSave. rewrite Hst. simpl.
      destruct (Z.leb_spec (startDate s) now); [lia | reflexivity].
  - destruct (Z_lt_dec (endDate s) now) as [Hover|Hrun].
    + rewrite (preSave_active_over now s) by auto.
      apply preSave_settled. now left.
    + rewrite !(preSave_active_running now s) by (auto; lia). reflexivity.
  - rewrite !(preSave_settled now s) by auto. reflexivity.
  - rewrite !(preSave_settled now s) by auto. reflexivity.
Qed.

(** X15.  Saving twice at the same instant is saving once. *)
Theorem save_idempotent now s :
  after (save now) (after (save now) s) = after (save now) s.
Proof.
  rewrite !after_save. destruct (documentValid s) eqn:Hvalid.
  - rewrite documentValid_preSave, Hvalid. apply preSave_idempotent.
  - now rewrite Hvalid.
Qed.

(** X16.  The hook never completes a season that was not activated: an
    Upcoming season saved only after its [endDate] stays exactly as it is,
    however many times it is saved. *)
Theorem stale_upcoming_stays (nows : list Z) s :
  status s = UPCOMING -> Forall (fun now => endDate s < now) nows ->
  run (map Save nows) s = s.
Proof.
  intros Hst Hlate. induction nows as [|now nows IH]; [reflexivity|].
  apply Forall_cons in Hlate as [Hnow Hlate].
  change (run (map Save (now :: nows)) s)
    with (run (map Save nows) (after (call (Save now)) s)).
  rewrite after_call, after_save.
  assert (preSave now s = s) as ->.
  { unfold preSave. rewrite Hst. simpl.
    rewrite Z.geb_leb. destruct (Z.leb_spec now (endDate s)); [lia|].
    now rewrite andb_false_r. }
  destruct (documentValid s); now apply IH.
Qed.

Lemma stale_upcoming_stays_witness :
  status Samples.staleSeason = UPCOMING /\
  Forall (fun now => endDate Samples.staleSeason < now) [1720000000000; 1730000000000] /\
  run (map Save [1720000000000; 1730000000000]) Samples.staleSeason = Samples.staleSeason.
Proof.
  assert (Forall (fun now => endDate Samples.staleSeason < now)
            [1720000000000; 1730000000000]) as Hlate
    by (repeat (apply Forall_cons; split; [simpl; lia|]); constructor).
  split; [reflexivity | split; [exact Hlate|]].
  exact (stale_upcoming_stays [1720000000000; 1730000000000] Samples.staleSeason
           eq_refl Hlate).
Defined.

(** X17.  On a season the schema accepts, activating and then completing
    an Upcoming season always ends with a Completed season whose
    [isFantasyActive] is false, whenever the two calls are made: either
    [completeSeason] does it, or the save inside [activateSeason] already
    did and [completeSeason] throws. *)
Theorem activate_then_complete (now1 now2 : Z) s :
  status s = UPCOMING -> documentValid s = true ->
  let s' := after (completeSeason now2) (after (activateSeason now1) s) in
  status s' = COMPLETED /\ isFantasyActive s' = false /\
  (now1 <= endDate s -> Js.result (completeSeason now2) (after (activateSeason now1) s)
                        = Return tt) /\
  (endDate s < now1 -> Js.result (completeSeason now2) (after (activateSeason now1) s)
                       = Thrown "Can only complete active seasons").
Proof.
  intros Hst Hvalid s'. subst s'. unfold Js.result, after.
  assert (documentValid (set_isFantasyActive true (set_status ACTIVE s)) = true)
    as Hvalid1 by exact Hvalid.
  assert (documentValid (set_isFantasyActive false (set_status COMPLETED
            (set_isFantasyActive true (set_status ACTIVE s)))) = true)
    as Hvalid2 by exact Hvalid.
  rewrite (activateSeason_unfold now1 s Hst), save_unfold, Hvalid1. simpl.
  destruct (Z.le_gt_cases now1 (endDate s)) as [Hrun|Hover].
  - rewrite preSave_active_running by (simpl; auto).
    unfold completeSeason, bind, get, modify. simpl.
    rewrite save_unfold, Hvalid2. simpl.
    repeat split; intros; try reflexivity; lia.
  - rewrite preSave_active_over by (simpl; auto; lia).
    unfold completeSeason, bind, get. simpl.
    repeat split; intros; try reflexivity; lia.
Qed.

Lemma activate_then_complete_witness :
  status Samples.staleSeason = UPCOMING /\ documentValid Samples.staleSeason = true /\
  status (after (completeSeason 1720000000001)
            (after (activateSeason 1720000000000) Samples.staleSeason)) = COMPLETED.
Proof.
  split; [reflexivity | split; [reflexivity|]].
  exact (proj1 (activate_then_complete 1720000000000 1720000000001
                  Samples.staleSeason eq_refl eq_refl)).
Defined.

End SeasonMore.

(** ** Match: the status machine and the score *)

Section MatchMore.

Import Match.
Local Open Scope Z_scope.

Implicit Types (m : Match) (now : Z) (c : MatchCall).

Lemma startMatch_unfold now m :
  startMatch now m =
  if status_eqb (status m) SCHEDULED
  then (Return tt, set_lastUpdated (Some now) (set_currentMinute (Some 0) (set_status LIVE m)))
  else (Thrown "Can only start scheduled matches", m).
Proof. unfold startMatch, bind, get. cbn beta iota. now destruct (status_eqb _ _). Qed.

Lemma finishMatch_unfold now m :
  finishMatch now m =
  if isLive m
  then (Return tt,
        set_lastUpdated (Some now) (set_currentMinute (Some 90) (set_status FINISHED m)))
  else (Thrown "Can only finish live matches", m).
Proof.
  unfold finishMatch, isLive, bind, get. cbn beta iota. now destruct (includes _ _).
Qed.

Lemma postponeMatch_unfold now m :
  postponeMatch now m =
  if status_eqb (status m) SCHEDULED
  then (Return tt, set_lastUpdated (Some now) (set_status POSTPONED m))
  else (Thrown "Can only postpone scheduled matches", m).
Proof. unfold postponeMatch, bind, get. cbn beta iota. now destruct (status_eqb _ _). Qed.

Lemma match_status_eqb_eq (a b : MatchStatus) : status_eqb a b = true <-> a = b.
Proof. destruct a, b; simpl; split; congruence. Qed.

Lemma isLive_iff m : isLive m = true <-> status m = LIVE \/ status m = HALFTIME.
Proof.
  unfold isLive, includes. destruct (status m); simpl; split;
    (congruence || (intros [?|?]; congruence) || auto).
Qed.

(** X18.  The three status methods are guarded and atomic: [startMatch]
    and [postponeMatch] return exactly on a Scheduled match, [finishMatch]
    exactly on a Live or Halftime one; a call that returns sets the status
    to Live, Postponed and Finished respectively ([startMatch] with minute
    0, [finishMatch] with minute 90), and a call that throws leaves the
    match as it was. *)
Theorem status_calls_guarded now m :
  (returned (Js.result (startMatch now) m) = true <-> status m = SCHEDULED) /\
  (returned (Js.result (postponeMatch now) m) = true <-> status m = SCHEDULED) /\
  (returned (Js.result (finishMatch now) m) = true <->
     status m = LIVE \/ status m = HALFTIME) /\
  (returned (Js.result (startMatch now) m) = true ->
     status (after (startMatch now) m) = LIVE /\
     currentMinute (after (startMatch now) m) = Some 0) /\
  (returned (Js.result (postponeMatch now) m) = true ->
     status (after (postponeMatch now) m) = POSTPONED) /\
  (returned (Js.result (finishMatch now) m) = true ->
     status (after (finishMatch now) m) = FINISHED /\
     currentMinute (after (finishMatch now) m) = Some 90) /\
  (returned (Js.result (startMatch now) m) = false -> after (startMatch now) m = m) /\
  (returned (Js.result (postponeMatch now) m) = false -> after (postponeMatch now) m = m) /\
  (returned (Js.result (finishMatch now) m) = false -> after (finishMatch now) m = m).
Proof.
  unfold Js.result, after.
  rewrite startMatch_unfold, postponeMatch_unfold, finishMatch_unfold.
  rewrite <- isLive_iff, <- (match_status_eqb_eq (status m) SCHEDULED).
  destruct (status_eqb (status m) SCHEDULED), (isLive m); simpl;
    repeat split; intros; congruence.
Qed.

Lemma match_after_call c m :
  leadsTo (status m) (status (after (call c) m)) = true.
Proof.
  unfold after. destruct c as [h a now|now|now|now]; simpl.
  - rewrite updateScore_unfold. simpl. now destruct (status m).
  - rewrite startMatch_unfold.
    destruct (status m) eqn:Hst; simpl; rewrite ?Hst; reflexivity.
  - rewrite finishMatch_unfold. unfold isLive, includes.
    destruct (status m) eqn:Hst; simpl; rewrite ?Hst; reflexivity.
  - rewrite postponeMatch_unfold.
    destruct (status m) eqn:Hst; simpl; rewrite ?Hst; reflexivity.
Qed.

Lemma match_leadsTo_trans (a b c : MatchStatus) :
  leadsTo a b = true -> leadsTo b c = true -> leadsTo a c = true.
Proof. destruct a, b, c; simpl; congruence. Qed.

(** X19.  Over any sequence of [updateScore], [startMatch], [finishMatch]
    and [postponeMatch] calls the status only follows the steps Scheduled
    to Live or Postponed and Live or Halftime to Finished.  So a Finished,
    Postponed, Cancelled or Suspended match keeps its status whatever is
    called, no match returns to Scheduled, and no call puts a match in
    Halftime, Cancelled or Suspended. *)
Theorem match_status_moves_forward (cs : list MatchCall) m :
  leadsTo (status m) (status (run cs m)) = true /\
  (status m = FINISHED \/ status m = POSTPONED \/
   status m = CANCELLED \/ status m = SUSPENDED -> status (run cs m) = status m) /\
  (status (run cs m) = SCHEDULED -> status m = SCHEDULED) /\
  (status (run cs m) = HALFTIME \/ status (run cs m) = CANCELLED \/
   status (run cs m) = SUSPENDED -> status m = status (run cs m)).
Proof.
  assert (leadsTo (status m) (status (run cs m)) = true) as Hlead.
  { revert m. induction cs as [|c cs IH]; intros m;
      [change (run [] m) with m; now destruct (status m)|].
    change (run (c :: cs) m) with (run cs (after (call c) m)).
    eapply match_leadsTo_trans; [apply match_after_call | apply IH]. }
  split; [assumption|].
  destruct (status m), (status (run cs m)); simpl in Hlead; try discriminate;
    repeat split; intros; try reflexivity;
    repeat match goal with H : _ \/ _ |- _ => destruct H end; congruence.
Qed.

Lemma orZero_Some (z : Z) : orZero (Some z) = z.
Proof. unfold orZero. destruct (Z.eqb_spec z 0); congruence. Qed.

Lemma updateScore_stores (homeGoals awayGoals now : Z) m :
  goals <$> homeTeamScore (after (updateScore homeGoals awayGoals now) m) = Some homeGoals /\
  goals <$> awayTeamScore (after (updateScore homeGoals awayGoals now) m) = Some awayGoals /\
  result (after (updateScore homeGoals awayGoals now) m)
    = Some (compareGoals homeGoals awayGoals).
Proof.
  unfold after. rewrite updateScore_unfold, compareGoals_branches. simpl.
  repeat split; [now destruct (homeTeamScore m) | now destruct (awayTeamScore m)].
Qed.

(** X20.  What the virtuals read after [updateScore]: [totalGoals] is the
    sum of the two goal counts, [goalDifference] their absolute
    difference, and the stored [result] is a draw exactly when
    [goalDifference] is 0. *)
Theorem virtuals_after_updateScore (homeGoals awayGoals now : Z) m :
  let m' := after (updateScore homeGoals awayGoals now) m in
  totalGoals m' = homeGoals + awayGoals /\
  goalDifference m' = Z.abs (homeGoals - awayGoals) /\
  (result m' = Some DRAW <-> goalDifference m' = 0).
Proof.
  intros m'. subst m'. unfold totalGoals, goalDifference.
  destruct (updateScore_stores homeGoals awayGoals now m) as (-> & -> & ->).
  rewrite !orZero_Some. repeat split.
  - unfold compareGoals. destruct (Z.compare_spec homeGoals awayGoals); intros [=]. lia.
  - intros Hzero. unfold compareGoals.
    assert (homeGoals = awayGoals) as -> by lia. now rewrite Z.compare_refl.
Qed.

(** X21.  The last score wins: an [updateScore] after another leaves the
    match exactly as the second one alone would. *)
Theorem updateScore_last_wins (h1 a1 now1 h2 a2 now2 : Z) m :
  after (updateScore h2 a2 now2) (after (updateScore h1 a1 now1) m)
  = after (updateScore h2 a2 now2) m.
Proof.
  unfold after. rewrite !updateScore_unfold. simpl.
  destruct m as [? ? ? ? ? ? ? home away ? ? ? ? ? ? ? ?]. simpl.
  destruct home, away; reflexivity.
Qed.

Lemma run_app (cs1 cs2 : list MatchCall) m : run (cs1 ++ cs2) m = run cs2 (run cs1 m).
Proof. unfold run. apply fold_left_app. Qed.

Lemma run_updates (scores : list (Z * Z * Z)) m :
  let m' := run (map (fun score => UpdateScore score.1.1 score.1.2 score.2) scores) m in
  status m' = status m /\
  result m' = match last scores with
              | Some score => Some (compareGoals score.1.1 score.1.2)
              | None => result m
              end.
Proof.
  induction scores as [|score scores IH] using rev_ind; [now split|].
  rewrite map_app, run_app, last_snoc. simpl map.
  change (run [UpdateScore score.1.1 score.1.2 score.2] ?x)
    with (after (updateScore score.1.1 score.1.2 score.2) x).
  destruct IH as [Hst _]. split.
  - unfold after at 1. rewrite updateScore_unfold. simpl. exact Hst.
  - apply updateScore_stores.
Qed.

(** X22.  A match played through ends as the last score says: from a
    Scheduled match, [startMatch], then any number of [updateScore] calls,
    then [finishMatch] all return in effect, and leave the match Finished
    at minute 90 with the result of the last [updateScore] (or, with no
    score update at all, the result the match had before). *)
Theorem played_through (kickOff whistle : Z) (scores : list (Z * Z * Z)) m :
  status m = SCHEDULED ->
  let m' := run (playedThrough kickOff scores whistle) m in
  status m' = FINISHED /\
  currentMinute m' = Some 90 /\
  result m' = match last scores with
              | Some score => Some (compareGoals score.1.1 score.1.2)
              | None => result m
              end.
Proof.
  intros Hst m'. subst m'. unfold playedThrough.
  change (run (StartMatch kickOff :: ?cs) m) with (run cs (after (startMatch kickOff) m)).
  rewrite run_app.
  set (live := after (startMatch kickOff) m).
  assert (status live = LIVE /\ result live = result m) as [Hlive Hres].
  { subst live. unfold after. rewrite startMatch_unfold, Hst. now split. }
  destruct (run_updates scores live) as [Hst' Hres'].
  set (played := run _ live) in *.
  change (run [FinishMatch whistle] played) with (after (finishMatch whistle) played).
  unfold after. rewrite finishMatch_unfold.
  assert (isLive played = true) as -> by (apply isLive_iff; left; congruence).
  simpl. repeat split. rewrite Hres', Hres. reflexivity.
Qed.

Lemma played_through_witness :
  status Samples.fixture = SCHEDULED /\
  result (run (playedThrough 1700003600000
                 [(1, 0, 1700004000000); (1, 1, 1700006000000); (1, 2, 1700008000000)]
                 1700009400000) Samples.fixture) = Some AWAY_WIN.
Proof.
  split; [reflexivity|].
  exact (proj2 (proj2 (played_through 1700003600000 1700009400000
                         [(1, 0, 1700004000000); (1, 1, 1700006000000);
                          (1, 2, 1700008000000)] Samples.fixture eq_refl))).
Defined.

End MatchMore.

(** ** Team: restoring, deactivating and what a delete leaves alone *)

Section TeamMore.

Import Team.

Implicit Types (i : Instance) (c : gmap string Team) (q : Filter) (id : string) (t : Team).

Lemma activate_unfold (thisYear stamp : Z) i :
  let assigned := set_deletedAt None (set_isActive true (this i)) in
  activate thisYear stamp i =
  if validate thisYear (this i)
  then (Return tt,
        {| _id := _id i; this := set_updatedAt stamp assigned;
           teams := <[_id i := set_updatedAt stamp assigned]> (teams i) |})
  else (Rejected ValidationError,
        {| _id := _id i; this := assigned; teams := teams i |}).
Proof.
  intros assigned. unfold activate, bind, modify. simpl. rewrite team_save_unfold. simpl.
  change (validate thisYear (set_deletedAt None (set_isActive true (this i))))
    with (validate thisYear (this i)).
  now destruct (validate thisYear (this i)).
Qed.

Lemma deactivate_unfold (thisYear stamp : Z) i :
  let assigned := set_isActive false (this i) in
  deactivate thisYear stamp i =
  if validate thisYear (this i)
  then (Return tt,
        {| _id := _id i; this := set_updatedAt stamp assigned;
           teams := <[_id i := set_updatedAt stamp assigned]> (teams i) |})
  else (Rejected ValidationError,
        {| _id := _id i; this := assigned; teams := teams i |}).
Proof.
  intros assigned. unfold deactivate, bind, modify. simpl. rewrite team_save_unfold. simpl.
  change (validate thisYear (set_isActive false (this i)))
    with (validate thisYear (this i)).
  now destruct (validate thisYear (this i)).
Qed.

(** X23.  Soft delete followed by [activate] is a round trip on an active
    team the schema accepts and the collection stores: both saves are
    fulfilled, every path of the document is again what it was except
    [updatedAt], which carries the time of the second save, the collection
    holds that document under the team's [_id] and is otherwise what it
    was, and the team is again found by [find({})] and [findById] and no
    longer by [findDeleted]. *)
Theorem delete_activate_round_trip (thisYear now stamp1 stamp2 : Z) i :
  validate thisYear (this i) = true ->
  isActive (this i) = true -> deletedAt (this i) = None -> inStep i ->
  let deleted := after (delete thisYear noOptions now stamp1) i in
  let restored := after (activate thisYear stamp2) deleted in
  Js.result (delete thisYear noOptions now stamp1) i = Return tt /\
  Js.result (activate thisYear stamp2) deleted = Return tt /\
  this restored = set_updatedAt stamp2 (this i) /\
  teams restored = <[_id i := this restored]> (teams i) /\
  _id restored = _id i /\
  find noFilter (teams restored) !! _id i = Some (this restored) /\
  findById (_id i) (teams restored) = Some (this restored) /\
  findDeleted (teams restored) !! _id i = None.
Proof.
  intros Hvalid Hact Hdel Hstored deleted restored.
  assert (Js.result (delete thisYear noOptions now stamp1) i = Return tt /\
          deleted = {| _id := _id i;
                       this := set_updatedAt stamp1
                                 (set_isActive false (set_deletedAt (Some now) (this i)));
                       teams := <[_id i := set_updatedAt stamp1
                                   (set_isActive false (set_deletedAt (Some now) (this i)))]>
                                  (teams i) |}) as [Hr1 Hdeleted].
  { subst deleted. unfold Js.result, after. rewrite delete_soft_unfold, Hvalid. now split. }
  assert (Js.result (activate thisYear stamp2) deleted = Return tt /\
          this restored = set_updatedAt stamp2 (this i) /\
          teams restored = <[_id i := set_updatedAt stamp2 (this i)]> (teams i) /\
          _id restored = _id i) as (Hr2 & Hthis & Hteams & Hid).
  { subst restored. rewrite Hdeleted. unfold Js.result, after. rewrite activate_unfold.
    simpl.
    change (validate thisYear (set_updatedAt stamp1
              (set_isActive false (set_deletedAt (Some now) (this i)))))
      with (validate thisYear (this i)).
    rewrite Hvalid. simpl.
    assert (set_updatedAt stamp2 (set_deletedAt None (set_isActive true
              (set_updatedAt stamp1 (set_isActive false (set_deletedAt (Some now) (this i))))))
            = set_updatedAt stamp2 (this i)) as ->.
    { destruct (this i) as [? ? ? ? ? ? ? ? ? act del ? ?]. simpl in *. now subst act del. }
    rewrite insert_insert_eq. repeat split. }
  rewrite Hthis, Hteams.
  split; [exact Hr1|]. split; [exact Hr2|]. split; [reflexivity|]. split; [reflexivity|].
  split; [exact Hid|]. split; [|split].
  - apply find_lookup. split; [apply lookup_insert_eq|]. unfold matches, matchesRest. simpl.
    now rewrite bool_decide_eq_true_2.
  - rewrite findById_lookup, lookup_insert_eq. simpl. now rewrite bool_decide_eq_true_2.
  - apply find_lookup_None. right. eexists. split; [apply lookup_insert_eq|].
    unfold matches, matchesRest. simpl. rewrite bool_decide_eq_false_2; [reflexivity|].
    intros Hne. now apply Hne.
Qed.

Lemma delete_activate_round_trip_witness :
  let i := Samples.arsenalLoaded in
  validate 2025 (this i) = true /\
  isActive (this i) = true /\ deletedAt (this i) = None /\ inStep i /\
  this (after (activate 2025 1700000000009)
          (after (delete 2025 noOptions 1700000000000 1700000000004) i))
    = set_updatedAt 1700000000009 (this i).
Proof.
  intros i.
  assert (inStep i) as Hstored by reflexivity.
  split; [reflexivity | split; [reflexivity | split; [reflexivity | split; [exact Hstored|]]]].
  exact (proj1 (proj2 (proj2 (delete_activate_round_trip 2025 1700000000000
                                1700000000004 1700000000009 i
                                eq_refl eq_refl eq_refl Hstored)))).
Defined.

(** X24.  Every stored team is found by exactly one of [find({})] and
    [findDeleted()]: by the first when it has no [deletedAt], by the second
    when it has one; and neither finds a team that is not stored. *)
Theorem find_or_findDeleted c id t :
  (c !! id = Some t <->
   find noFilter c !! id = Some t \/ findDeleted c !! id = Some t) /\
  ~ (find noFilter c !! id = Some t /\ findDeleted c !! id = Some t) /\
  (find noFilter c !! id = Some t <-> c !! id = Some t /\ deletedAt t = None) /\
  (findDeleted c !! id = Some t <-> c !! id = Some t /\ deletedAt t <> None).
Proof.
  assert (find noFilter c !! id = Some t <-> c !! id = Some t /\ deletedAt t = None) as Hlive.
  { rewrite find_lookup. unfold matches, matchesRest. simpl.
    now rewrite bool_decide_eq_true. }
  assert (findDeleted c !! id = Some t <-> c !! id = Some t /\ deletedAt t <> None) as Hdead.
  { unfold findDeleted. rewrite find_lookup. unfold matches, matchesRest. simpl.
    now rewrite bool_decide_eq_true. }
  split; [split | split; [|split; assumption]].
  - intros Hc. destruct (deletedAt t) eqn:Hd.
    + right. apply Hdead. split; [assumption | congruence].
    + left. apply Hlive. now split.
  - intros [[Hc _]%Hlive | [Hc _]%Hdead]; assumption.
  - intros [[_ Hnone]%Hlive [_ Hsome]%Hdead]. contradiction.
Qed.

(** X25.  Inactive is not deleted.  After [deactivate] a team the schema
    accepts and that is not soft-deleted is stored with [isActive =
    false], is still found by [find({})] and [findById], is listed by
    [findInactive], and is found by neither [findByLeague] nor
    [findByCountry].  After a soft delete the team, although its
    [isActive] is false too, is not listed by [findInactive]. *)
Theorem inactive_is_not_deleted (thisYear now stamp : Z) i :
  validate thisYear (this i) = true ->
  deletedAt (this i) = None ->
  let off := after (deactivate thisYear stamp) i in
  let soft := after (delete thisYear noOptions now stamp) i in
  isActive (this off) = false /\
  find noFilter (teams off) !! _id i = Some (this off) /\
  findById (_id i) (teams off) = Some (this off) /\
  findInactive (teams off) !! _id i = Some (this off) /\
  (forall league, findByLeague league (teams off) !! _id i = None) /\
  (forall country, findByCountry country (teams off) !! _id i = None) /\
  isActive (this soft) = false /\
  findInactive (teams soft) !! _id i = None.
Proof.
  intros Hvalid Hdel off soft. subst off soft. unfold after.
  rewrite deactivate_unfold, delete_soft_unfold, Hvalid. simpl.
  split; [reflexivity|]. split; [|split; [|split; [|split; [|split; [|split]]]]].
  - apply find_lookup. split; [apply lookup_insert_eq|].
    unfold matches, matchesRest. simpl. now rewrite bool_decide_eq_true_2.
  - rewrite findById_lookup, lookup_insert_eq. simpl. now rewrite bool_decide_eq_true_2.
  - apply find_lookup. split; [apply lookup_insert_eq|].
    unfold matches, matchesRest. simpl. now rewrite bool_decide_eq_true_2.
  - intros league. apply find_lookup_None. right. eexists.
    split; [apply lookup_insert_eq|]. unfold matches, matchesRest. simpl.
    now rewrite andb_false_r.
  - intros country. apply find_lookup_None. right. eexists.
    split; [apply lookup_insert_eq|]. unfold matches, matchesRest. simpl.
    now rewrite andb_false_r.
  - reflexivity.
  - apply find_lookup_None. right. eexists. split; [apply lookup_insert_eq|]. reflexivity.
Qed.

Lemma inactive_is_not_deleted_witness :
  let i := Samples.arsenalLoaded in
  validate 2025 (this i) = true /\ deletedAt (this i) = None /\
  findInactive (teams (after (deactivate 2025 1700000000004) i)) !! _id i
    = Some (this (after (deactivate 2025 1700000000004) i)) /\
  findInactive (teams (after (delete 2025 noOptions 1700000000000 1700000000004) i)) !! _id i
    = None.
Proof.
  intros i.
  destruct (inactive_is_not_deleted 2025 1700000000000 1700000000004 i eq_refl eq_refl)
    as (_ & _ & _ & Hlisted & _ & _ & _ & Hnot).
  split; [reflexivity | split; [reflexivity | split; assumption]].
Defined.

(** X26.  A delete touches one record: after a soft or a hard delete of a
    team, every query returns for every other [_id] what it returned
    before. *)
Theorem delete_leaves_others (thisYear : Z) (options : DeleteOptions) (now stamp : Z) i q id :
  id <> _id i ->
  find q (teams (after (delete thisYear options now stamp) i)) !! id
    = find q (teams i) !! id /\
  findById id (teams (after (delete thisYear options now stamp) i)) = findById id (teams i).
Proof.
  intros Hne.
  assert (teams (after (delete thisYear options now stamp) i) !! id = teams i !! id) as Hsame.
  { unfold after, delete. destruct (truthy (hard options)); simpl.
    - now apply lookup_delete_ne.
    - unfold bind, modify. simpl. rewrite team_save_unfold. simpl.
      destruct (validate thisYear _); simpl; [now apply lookup_insert_ne | reflexivity]. }
  split.
  - unfold find. rewrite !map_lookup_filter, Hsame. reflexivity.
  - now rewrite !findById_lookup, Hsame.
Qed.

Lemma delete_leaves_others_witness :
  let i := Samples.arsenalLoaded in
  Samples.oid "d02" <> _id i /\
  findById (Samples.oid "d02")
    (teams (after (delete 2025 noOptions 1700000000000 1700000000004) i))
    = findById (Samples.oid "d02") (teams i).
Proof.
  intros i.
  assert (Samples.oid "d02" <> _id i) as Hne by discriminate.
  split; [exact Hne|].
  exact (proj2 (delete_leaves_others 2025 noOptions 1700000000000 1700000000004 i noFilter
                  (Samples.oid "d02") Hne)).
Defined.

End TeamMore.

(** ** The test helpers *)

Section MatchersFacts.

Import Matchers.

Lemma fold_countPosition (received : list (option PlayerPosition)) (start : PositionCounts) :
  fold_left countPosition received start =
  {| goalkeepers := goalkeepers start + playing GOALKEEPER received;
     defenders := defenders start + playing DEFENDER received;
     midfielders := midfielders start + playing MIDFIELDER received;
     forwards := forwards start + playing FORWARD received |}.
Proof.
  revert start. induction received as [|p received IH]; intros start.
  - destruct start. unfold playing. simpl. now rewrite !Nat.add_0_r.
  - simpl fold_left. rewrite IH. unfold playing.
    destruct p as [[ | | | ]|]; simpl; f_equal; lia.
Qed.

(** X27.  The squad-composition matcher passes exactly when the received
    players counted by position number 1 to 2 goalkeepers, 3 to 5
    defenders, 3 to 5 midfielders and 1 to 3 forwards, and at least 11 in
    all.  Its upper size bound never decides (a squad within the four
    rules has at most 15 counted players), and players without a
    recognised position are not counted at all: appending any number of
    them changes nothing, so a list of more than 15 entries can pass. *)
Theorem squad_composition_pass (received : list (option PlayerPosition)) :
  let gk := playing GOALKEEPER received in
  let df := playing DEFENDER received in
  let mf := playing MIDFIELDER received in
  let fw := playing FORWARD received in
  (pass (toHaveValidSquadComposition received) = true <->
   (1 <= gk <= 2 /\ 3 <= df <= 5 /\ 3 <= mf <= 5 /\ 1 <= fw <= 3 /\
    11 <= gk + df + mf + fw)%nat) /\
  (pass (toHaveValidSquadComposition received) = true -> (gk + df + mf + fw <= 15)%nat) /\
  (forall n : nat,
     toHaveValidSquadComposition (received ++ repeat None n)
     = toHaveValidSquadComposition received).
Proof.
  intros gk df mf fw.
  assert (pass (toHaveValidSquadComposition received) = true <->
          (1 <= gk <= 2 /\ 3 <= df <= 5 /\ 3 <= mf <= 5 /\ 1 <= fw <= 3 /\
           11 <= gk + df + mf + fw)%nat) as Hpass.
  { unfold toHaveValidSquadComposition. rewrite fold_countPosition. simpl.
    fold gk df mf fw.
    destruct (Nat.ltb_spec gk 1), (Nat.ltb_spec 2 gk); simpl; try (split; [discriminate | lia]).
    destruct (Nat.ltb_spec df 3), (Nat.ltb_spec 5 df); simpl; try (split; [discriminate | lia]).
    destruct (Nat.ltb_spec mf 3), (Nat.ltb_spec 5 mf); simpl; try (split; [discriminate | lia]).
    destruct (Nat.ltb_spec fw 1), (Nat.ltb_spec 3 fw); simpl; try (split; [discriminate | lia]).
    destruct (Nat.ltb_spec (gk + df + mf + fw) 11), (Nat.ltb_spec 15 (gk + df + mf + fw));
      simpl; split; try discriminate; try lia; intros _; lia. }
  split; [exact Hpass|]. split.
  - intros Hp. apply Hpass in Hp. lia.
  - intros n. unfold toHaveValidSquadComposition. rewrite fold_left_app.
    assert (forall counts, fold_left countPosition (repeat None n) counts = counts) as ->.
    { induction n as [|n IH]; intros counts; [reflexivity | apply IH]. }
    reflexivity.
Qed.

Example benched_strangers_pass :
  pass (toHaveValidSquadComposition
          (repeat (Some GOALKEEPER) 1 ++ repeat (Some DEFENDER) 4
           ++ repeat (Some MIDFIELDER) 4 ++ repeat (Some FORWARD) 2 ++ repeat None 9))
  = true.
Proof. reflexivity. Qed.

End MatchersFacts.
